(** * One-shot chat-API smoke tests: [test-chat-api.py], [test-imessage-conversion.py]

    Both scripts build a dict literal, serialise it with [json.dumps], send it
    with [requests.post] inside a [try] block, and print either the status and
    the body of the response or the description of the exception.

    The development has four parts:
    - Python values as the scripts use them ([str] as a sequence of code
      points, [int], dict literals) and the exceptions [requests.post] can
      raise;
    - [json.dumps] and [json.loads] with their default settings, after
      CPython's [Lib/json/encoder.py] and [Lib/json/decoder.py];
    - a state-and-exception monad over the process's world (arguments,
      environment, standard input, network, standard output), in which the
      two scripts are transcribed statement by statement;
    - the properties of the two scripts. *)

From Stdlib Require Import List String Ascii NArith ZArith Bool Lia.
From Stdlib Require Import DecimalString DecimalPos DecimalZ.
Import ListNotations.

Set Warnings "-register-all".

(** ** Python strings *)

(** A Python [str] is a finite sequence of Unicode code points; CPython
    admits every code point below [0x110000], lone surrogates included. *)
Definition pystr := list N.

Definition ord (a : ascii) : N := N_of_ascii a.

(** A literal of the source whose characters are all ASCII. *)
Definition py (s : string) : pystr := map ord (list_ascii_of_string s).

(** The double quote (34) and the backslash (92) are given by number. *)
Definition DQUOTE : N := 34.
Definition BSLASH : N := 92.

(** [py_q s] is [py s] with every apostrophe of [s] standing for a double
    quote: it is only used to display JSON text. *)
Definition py_q (s : string) : pystr :=
  map (fun c => if N.eqb c (ord "'") then DQUOTE else c) (py s).

Definition valid_codepoint (c : N) : Prop := (c < 0x110000)%N.
Definition valid_str (s : pystr) : Prop := Forall valid_codepoint s.

(** Surrogate code points.  A string that encodes to UTF-8 has none. *)
Definition is_high_surrogate (u : N) : bool :=
  (0xd800 <=? u)%N && (u <=? 0xdbff)%N.
Definition is_low_surrogate (u : N) : bool :=
  (0xdc00 <=? u)%N && (u <=? 0xdfff)%N.
Definition is_surrogate (u : N) : bool :=
  is_high_surrogate u || is_low_surrogate u.

(** Text that UTF-8 can encode: Unicode scalar values only. *)
Definition utf8_text (s : pystr) : Prop :=
  Forall (fun c => valid_codepoint c /\ is_surrogate c = false) s.

(** No high surrogate is immediately followed by a low surrogate. *)
Fixpoint no_surrogate_pair (s : pystr) : bool :=
  match s with
  | [] => true
  | c :: s' =>
      match s' with
      | [] => true
      | c' :: _ =>
          negb (is_high_surrogate c && is_low_surrogate c')
          && no_surrogate_pair s'
      end
  end.

(** The strings [json.dumps] and [json.loads] restore: code points in
    range, and no high surrogate next to a low one. *)
Definition wf_str (s : pystr) : Prop :=
  valid_str s /\ no_surrogate_pair s = true.

(** [a == b] on strings. *)
Fixpoint pystr_eqb (a b : pystr) : bool :=
  match a, b with
  | [], [] => true
  | x :: a', y :: b' => N.eqb x y && pystr_eqb a' b'
  | _, _ => false
  end.

(** [str(n)] for an [int]: decimal digits, a leading minus sign when
    negative. *)
Definition str_int (z : Z) : pystr := py (NilZero.string_of_int (Z.to_int z)).

(** [int(s)] on the output of [str_int]. *)
Definition ascii_of_codepoint (c : N) : ascii := ascii_of_N c.
Definition int_of_str (s : pystr) : option Z :=
  option_map Z.of_int
    (NilZero.int_of_string (string_of_list_ascii (map ascii_of_codepoint s))).

(** ** Python values and exceptions *)

(** Hashable values that occur as dict keys. *)
Inductive pykey : Type :=
| KNone
| KBool (b : bool)
| KInt (z : Z)
| KStr (s : pystr).

(** Values: [None], [bool], [int], [str], [list] and [dict] (insertion
    ordered, as every dict since Python 3.7). *)
Inductive pyval : Type :=
| PNone
| PBool (b : bool)
| PInt (z : Z)
| PStr (s : pystr)
| PList (l : list pyval)
| PDict (items : list (pykey * pyval)).

Definition is_KStr (k : pykey) : bool :=
  match k with KStr _ => true | _ => false end.
Definition is_PStr (v : pyval) : bool :=
  match v with PStr _ => true | _ => false end.

(** [a == b] on keys; [True == 1] and [False == 0] hold in Python. *)
Definition int_of_bool (b : bool) : Z := if b then 1%Z else 0%Z.

Definition pykey_eqb (a b : pykey) : bool :=
  match a, b with
  | KNone, KNone => true
  | KStr s, KStr t => pystr_eqb s t
  | KInt x, KInt y => Z.eqb x y
  | KBool x, KBool y => Bool.eqb x y
  | KBool x, KInt y => Z.eqb (int_of_bool x) y
  | KInt x, KBool y => Z.eqb x (int_of_bool y)
  | _, _ => false
  end.

(** [d[k] = v] on an insertion-ordered dict: an existing key keeps its
    place and takes the new value, a new key goes last. *)
Fixpoint dict_setitem (d : list (pykey * pyval)) (k : pykey) (v : pyval)
  : list (pykey * pyval) :=
  match d with
  | [] => [(k, v)]
  | (k', v') :: d' =>
      if pykey_eqb k' k then (k', v) :: d'
      else (k', v') :: dict_setitem d' k v
  end.

(** A dict display [{k1: v1, ..., kn: vn}], and [dict(pairs)]: the items
    are inserted from left to right. *)
Definition dict_display (items : list (pykey * pyval)) : pyval :=
  PDict (fold_left (fun d kv => dict_setitem d (fst kv) (snd kv)) items []).

(** The dict with the given string keys and string values, in order. *)
Definition str_item (kv : pystr * pystr) : pykey * pyval :=
  (KStr (fst kv), PStr (snd kv)).

Definition str_str_dict (p : list (pystr * pystr)) : pyval :=
  PDict (map str_item p).

(** The classes of the exceptions the scripts can meet.  All derive from
    [Exception] but [KeyboardInterrupt] and [SystemExit], which derive
    from [BaseException] only. *)
Inductive exc_class : Type :=
| ConnectionError      (* requests.exceptions.ConnectionError: refused, DNS *)
| ReadTimeout          (* requests.exceptions.ReadTimeout *)
| MissingSchema        (* requests.exceptions.MissingSchema *)
| InvalidSchema        (* requests.exceptions.InvalidSchema *)
| InvalidURL           (* requests.exceptions.InvalidURL *)
| TypeError
| OtherException       (* any other subclass of Exception *)
| KeyboardInterrupt
| SystemExit.

Record PyExc : Type := mkExc { exc_cls : exc_class; exc_args : pystr }.

(** [isinstance(e, Exception)]. *)
Definition isinstance_Exception (e : PyExc) : bool :=
  match exc_cls e with
  | KeyboardInterrupt | SystemExit => false
  | _ => true
  end.

(** [str(e)], which is what the f-string field [{e}] formats. *)
Definition str_exc (e : PyExc) : pystr := exc_args e.

(** Outcome of evaluating an expression: a value or a raised exception. *)
Inductive result (A : Type) : Type :=
| Ok (a : A)
| Raise (e : PyExc).
Arguments Ok {A} a.
Arguments Raise {A} e.

(** ** [json.dumps], default settings

    [ensure_ascii=True], [separators=(', ', ': ')], [indent=None],
    [skipkeys=False], [sort_keys=False]. *)
Module Json.

Local Open Scope N_scope.

Definition hexdigit (d : N) : N :=
  if d <? 10 then ord "0" + d else ord "a" + (d - 10).

(** ['{0:04x}'.format(n)].  Every call below passes [n < 0x10000], where the
    result is exactly these four digits. *)
Definition format_04x (n : N) : pystr :=
  [ hexdigit (N.land (N.shiftr n 12) 15);
    hexdigit (N.land (N.shiftr n 8) 15);
    hexdigit (N.land (N.shiftr n 4) 15);
    hexdigit (N.land n 15) ].

(** [ESCAPE_ASCII]: the characters that [encode_basestring_ascii] replaces,
    namely the backslash, the double quote and everything outside the range
    from the space (0x20) to the tilde (0x7e). *)
Definition ESCAPE_ASCII (c : N) : bool :=
  (c =? BSLASH) || (c =? DQUOTE) || (c <? 0x20) || (0x7e <? c).

(** [ESCAPE_DCT]: the two-character escapes, then [\u00XX] for the other
    control characters. *)
Definition ESCAPE_DCT (c : N) : option pystr :=
  if c =? BSLASH then Some [BSLASH; BSLASH]
  else if c =? DQUOTE then Some [BSLASH; DQUOTE]
  else if c =? 8 then Some [BSLASH; ord "b"]
  else if c =? 12 then Some [BSLASH; ord "f"]
  else if c =? 10 then Some [BSLASH; ord "n"]
  else if c =? 13 then Some [BSLASH; ord "r"]
  else if c =? 9 then Some [BSLASH; ord "t"]
  else if c <? 0x20 then Some ([BSLASH; ord "u"] ++ format_04x c)
  else None.

(** The local function [replace] of [py_encode_basestring_ascii]. *)
Definition replace (c : N) : pystr :=
  match ESCAPE_DCT c with
  | Some e => e
  | None =>
      let n := c in
      if n <? 0x10000 then [BSLASH; ord "u"] ++ format_04x n
      else
        let n := n - 0x10000 in
        let s1 := N.lor 0xd800 (N.land (N.shiftr n 10) 0x3ff) in
        let s2 := N.lor 0xdc00 (N.land n 0x3ff) in
        [BSLASH; ord "u"] ++ format_04x s1 ++ [BSLASH; ord "u"] ++ format_04x s2
  end.

(** What [ESCAPE_ASCII.sub(replace, s)] writes for one character of [s]. *)
Definition chunk (c : N) : pystr := if ESCAPE_ASCII c then replace c else [c].

(** [ESCAPE_ASCII.sub(replace, s)]. *)
Definition escape_sub (s : pystr) : pystr := flat_map chunk s.

Definition encode_basestring_ascii (s : pystr) : pystr :=
  [DQUOTE] ++ escape_sub s ++ [DQUOTE].

(** Key conversion of [_iterencode_dict]; every [pykey] is accepted (the
    [TypeError] branch is for keys of other types). *)
Definition encode_key (k : pykey) : pystr :=
  match k with
  | KStr s => s
  | KBool true => py "true"
  | KBool false => py "false"
  | KNone => py "null"
  | KInt z => str_int z
  end.

Definition item_separator : pystr := py ", ".
Definition key_separator : pystr := py ": ".

(** [_iterencode], [_iterencode_list] and [_iterencode_dict], with the
    chunks they yield joined. *)
Fixpoint iterencode (o : pyval) : pystr :=
  match o with
  | PStr s => encode_basestring_ascii s
  | PNone => py "null"
  | PBool true => py "true"
  | PBool false => py "false"
  | PInt z => str_int z
  | PList l =>
      match l with
      | [] => py "[]"
      | _ =>
          py "[" ++
          (fix iterencode_list (first : bool) (l : list pyval) : pystr :=
             match l with
             | [] => []
             | v :: l' =>
                 (if first then [] else item_separator)
                 ++ iterencode v ++ iterencode_list false l'
             end) true l
          ++ py "]"
      end
  | PDict items =>
      match items with
      | [] => py "{}"
      | _ =>
          py "{" ++
          (fix iterencode_dict (first : bool) (items : list (pykey * pyval))
             : pystr :=
             match items with
             | [] => []
             | (k, v) :: items' =>
                 (if first then [] else item_separator)
                 ++ encode_basestring_ascii (encode_key k)
                 ++ key_separator
                 ++ iterencode v ++ iterencode_dict false items'
             end) true items
          ++ py "}"
      end
  end.

(** The members [_iterencode_dict] writes for string keys and string
    values: a named copy of its loop at that type. *)
Fixpoint str_str_members (first : bool) (p : list (pystr * pystr)) : pystr :=
  match p with
  | [] => []
  | (k, v) :: p' =>
      (if first then [] else item_separator)
      ++ encode_basestring_ascii k
      ++ key_separator
      ++ encode_basestring_ascii v ++ str_str_members false p'
  end.

(** [json.dumps(obj)]. *)
Definition dumps (obj : pyval) : pystr := iterencode obj.

(** ** [json.loads], default settings ([strict=True], no hooks)

    The decoder is modelled on JSON texts that are a string or an object
    whose values are strings; on any other value it answers [NotModelled]
    and never a wrong result. *)

Inductive parse_error : Type :=
| JSONDecodeError
| NotModelled
| OutOfFuel.

Inductive parsed (A : Type) : Type :=
| Parsed (a : A)
| Failed (e : parse_error).
Arguments Parsed {A} a.
Arguments Failed {A} e.

(** [WHITESPACE]: space, tab, line feed, carriage return. *)
Definition is_ws (c : N) : bool :=
  (c =? 32) || (c =? 9) || (c =? 10) || (c =? 13).

(** [s[_w(s, end).end():]]. *)
Fixpoint skip_ws (s : pystr) : pystr :=
  match s with
  | c :: r => if is_ws c then skip_ws r else s
  | [] => []
  end.

(** Value of one hexadecimal digit, either case. *)
Definition hexval (c : N) : option N :=
  if (ord "0" <=? c) && (c <=? ord "9") then Some (c - ord "0")
  else if (ord "a" <=? c) && (c <=? ord "f") then Some (c - ord "a" + 10)
  else if (ord "A" <=? c) && (c <=? ord "F") then Some (c - ord "A" + 10)
  else None.

(** [_decode_uXXXX] on the four characters after the letter u: four
    hexadecimal digits and their value [int(esc, 16)], as in the scanner
    [json.loads] runs, or no result where it raises. *)
Definition decode_uXXXX (h1 h2 h3 h4 : N) : option N :=
  match hexval h1, hexval h2, hexval h3, hexval h4 with
  | Some a, Some b, Some c, Some d => Some (((a * 16 + b) * 16 + c) * 16 + d)
  | _, _, _, _ => None
  end.

(** The table [BACKSLASH] of the one-letter escapes. *)
Definition BACKSLASH (esc : N) : option N :=
  if esc =? DQUOTE then Some DQUOTE
  else if esc =? BSLASH then Some BSLASH
  else if esc =? ord "/" then Some (ord "/")
  else if esc =? ord "b" then Some 8
  else if esc =? ord "f" then Some 12
  else if esc =? ord "n" then Some 10
  else if esc =? ord "r" then Some 13
  else if esc =? ord "t" then Some 9
  else None.

Definition join_surrogates (uni uni2 : N) : N :=
  0x10000 + N.lor (N.shiftl (uni - 0xd800) 10) (uni2 - 0xdc00).

(** [_append(char)] followed by the rest of the loop. *)
Definition append_char (c : N) (r : parsed (pystr * pystr))
  : parsed (pystr * pystr) :=
  match r with
  | Parsed (content, rest) => Parsed (c :: content, rest)
  | Failed e => Failed e
  end.

(** [py_scanstring(s, end)], where the argument is [s[end:]], the text after
    the opening quote; the result is the decoded string and [s[end':]] for
    the returned index [end'], just after the closing quote. *)
Fixpoint scanstring (s : pystr) : parsed (pystr * pystr) :=
  match s with
  | [] => Failed JSONDecodeError          (* unterminated string *)
  | c :: r =>
      if c =? DQUOTE then Parsed ([], r)
      else if c =? BSLASH then
        match r with
        | [] => Failed JSONDecodeError    (* unterminated string *)
        | esc :: r1 =>
            if negb (esc =? ord "u") then
              match BACKSLASH esc with
              | Some char => append_char char (scanstring r1)
              | None => Failed JSONDecodeError      (* invalid escape *)
              end
            else
              match r1 with
              | h1 :: h2 :: h3 :: h4 :: r2 =>
                  match decode_uXXXX h1 h2 h3 h4 with
                  | None => Failed JSONDecodeError
                  | Some uni =>
                      if is_high_surrogate uni then
                        match r2 with
                        | b :: u :: r3 =>
                            if (b =? BSLASH) && (u =? ord "u") then
                              match r3 with
                              | g1 :: g2 :: g3 :: g4 :: r4 =>
                                  match decode_uXXXX g1 g2 g3 g4 with
                                  | None => Failed JSONDecodeError
                                  | Some uni2 =>
                                      if is_low_surrogate uni2 then
                                        append_char (join_surrogates uni uni2)
                                                    (scanstring r4)
                                      else append_char uni (scanstring r2)
                                  end
                              | _ => Failed JSONDecodeError
                              end
                            else append_char uni (scanstring r2)
                        | _ => append_char uni (scanstring r2)
                        end
                      else append_char uni (scanstring r2)
                  end
              | _ => Failed JSONDecodeError         (* invalid \uXXXX *)
              end
        end
      else if c <? 0x20 then Failed JSONDecodeError (* control character *)
      else append_char c (scanstring r)
  end.

(** First characters of the JSON values that are not strings: objects,
    arrays, numbers, [true], [false], [null], [NaN], [Infinity]. *)
Definition starts_other_value (c : N) : bool :=
  existsb (N.eqb c) (py "{[-0123456789tfnNI").

(** [scan_once] where a member's value is expected. *)
Definition scan_once (s : pystr) : parsed (pyval * pystr) :=
  match s with
  | [] => Failed JSONDecodeError                    (* expecting value *)
  | c :: r =>
      if c =? DQUOTE then
        match scanstring r with
        | Parsed (v, r') => Parsed (PStr v, r')
        | Failed e => Failed e
        end
      else if starts_other_value c then Failed NotModelled
      else Failed JSONDecodeError
  end.

(** The loop of [JSONObject]; [s] starts just after the opening quote of a
    property name.  The source's fast paths around the colon and after the
    value skip exactly the whitespace there, as [skip_ws] does.  Each round
    consumes at least the closing quote of the name, so more rounds than
    the text has characters are never needed
    ([JsonFacts.loads_fuel_enough]). *)
Fixpoint JSONObject_loop (fuel : nat) (s : pystr) (pairs : list (pykey * pyval))
  : parsed (list (pykey * pyval) * pystr) :=
  match fuel with
  | O => Failed OutOfFuel
  | S fuel' =>
      match scanstring s with
      | Failed e => Failed e
      | Parsed (key, s1) =>
          match skip_ws s1 with
          | [] => Failed JSONDecodeError            (* expecting ':' *)
          | c :: s2 =>
              if negb (c =? ord ":") then Failed JSONDecodeError
              else
                match scan_once (skip_ws s2) with
                | Failed e => Failed e
                | Parsed (value, s3) =>
                    let pairs := pairs ++ [(KStr key, value)] in
                    match skip_ws s3 with
                    | [] => Failed JSONDecodeError  (* expecting ',' *)
                    | nextchar :: s4 =>
                        if nextchar =? ord "}" then Parsed (pairs, s4)
                        else if negb (nextchar =? ord ",") then
                          Failed JSONDecodeError
                        else
                          match skip_ws s4 with
                          | [] => Failed JSONDecodeError
                          | q :: s5 =>
                              if negb (q =? DQUOTE) then Failed JSONDecodeError
                              else JSONObject_loop fuel' s5 pairs
                          end
                    end
                end
          end
      end
  end.

(** [JSONObject]; [s] starts just after the opening brace. *)
Definition JSONObject (s : pystr) : parsed (pyval * pystr) :=
  match skip_ws s with
  | [] => Failed JSONDecodeError
  | nextchar :: s1 =>
      if nextchar =? ord "}" then Parsed (dict_display [], s1)
      else if negb (nextchar =? DQUOTE) then Failed JSONDecodeError
      else
        match JSONObject_loop (S (List.length s1)) s1 [] with
        | Parsed (pairs, rest) => Parsed (dict_display pairs, rest)
        | Failed e => Failed e
        end
  end.

(** [scan_once] at the top of the document. *)
Definition raw_decode (s : pystr) : parsed (pyval * pystr) :=
  match s with
  | c :: r => if c =? ord "{" then JSONObject r else scan_once s
  | [] => Failed JSONDecodeError
  end.

(** [json.loads(s)] for a [str]: a leading byte-order mark is refused, then
    [JSONDecoder.decode] skips whitespace, decodes one value and refuses
    anything but whitespace after it. *)
Definition loads (s : pystr) : parsed pyval :=
  match s with
  | 0xfeff :: _ => Failed JSONDecodeError
  | _ =>
      match raw_decode (skip_ws s) with
      | Failed e => Failed e
      | Parsed (obj, rest) =>
          match skip_ws rest with
          | [] => Parsed obj
          | _ :: _ => Failed JSONDecodeError        (* extra data *)
          end
      end
  end.

(** Two descriptions of JSON text used in the proofs about [loads]. *)

(** [lone_ok rest]: after the escape of a lone high surrogate, the text
    [rest] that follows does not continue it: either it is no [\u] escape,
    or it is the escape of a code point that is no low surrogate. *)
Definition lone_ok (rest : pystr) : Prop :=
  match rest with
  | b :: u :: r3 =>
      (b =? BSLASH) && (u =? ord "u") = true ->
      exists x r4, x < 0x10000 /\ is_low_surrogate x = false
                   /\ r3 = format_04x x ++ r4
  | _ => True
  end.

(** The text of one member, from the first character of its name on, before
    the text [R]. *)
Definition member_text (k v R : pystr) : pystr :=
  escape_sub k ++ DQUOTE :: ord ":" :: 32 :: DQUOTE :: escape_sub v ++ DQUOTE :: R.

End Json.

(** ** The process and its world *)

Inductive http_method : Type := GET | POST.

(** What a call of [requests.request(method, url, data=..., headers=...)]
    is given. *)
Record Request : Type := mkRequest {
  req_method : http_method;
  req_url : pystr;
  req_data : pystr;
  req_headers : list (pystr * pystr)
}.

(** The two attributes of [requests.Response] the scripts read. *)
Record Response : Type := mkResponse {
  status_code : Z;
  text : pystr
}.

(** Everything outside the script: what it could read ([sys.argv],
    [os.environ], standard input), the network, which answers the [n]-th
    request of the run with a response or by raising, and what the script
    has done so far (requests sent, arguments of the [print] calls). *)
Record World : Type := mkWorld {
  argv : list pystr;
  environ : list (pystr * pystr);
  stdin : pystr;
  network : nat -> Request -> result Response;
  sent : list Request;
  stdout : list pystr
}.

(** The world a fresh process starts in. *)
Definition boot (argv : list pystr) (environ : list (pystr * pystr))
    (stdin : pystr) (network : nat -> Request -> result Response) : World :=
  mkWorld argv environ stdin network [] [].

(** The text on standard output: [print] ends each argument with a line
    feed. *)
Definition stdout_text (w : World) : pystr :=
  flat_map (fun line => line ++ [10%N]) (stdout w).

(** Statements and expressions with effects. *)
Definition M (A : Type) : Type := World -> result A * World.

Definition ret {A} (a : A) : M A := fun w => (Ok a, w).

Definition bind {A B} (m : M A) (k : A -> M B) : M B :=
  fun w =>
    match m w with
    | (Ok a, w') => k a w'
    | (Raise e, w') => (Raise e, w')
    end.

Declare Scope py_scope.
Delimit Scope py_scope with pym.
Notation "x <- m ;; k" := (bind m (fun x => k))
  (at level 61, m at next level, right associativity) : py_scope.
Notation "m ;; k" := (bind m (fun _ => k))
  (at level 61, right associativity) : py_scope.

(** [requests.post(url, data=data, headers=headers)]: one request goes
    out, and the network decides what comes back. *)
Definition requests_post (url data : pystr) (headers : list (pystr * pystr))
  : M Response :=
  fun w =>
    let req := mkRequest POST url data headers in
    (network w (List.length (sent w)) req,
     mkWorld (argv w) (environ w) (stdin w) (network w)
             (sent w ++ [req]) (stdout w)).

(** [print(s)]. *)
Definition print (s : pystr) : M unit :=
  fun w =>
    (Ok tt,
     mkWorld (argv w) (environ w) (stdin w) (network w)
             (sent w) (stdout w ++ [s])).

(** [try: body / except Exception as e: handler]. *)
Definition try_except_Exception {A} (body : M A) (handler : PyExc -> M A)
  : M A :=
  fun w =>
    match body w with
    | (Ok a, w') => (Ok a, w')
    | (Raise e, w') =>
        if isinstance_Exception e then handler e w' else (Raise e, w')
    end.

Notation "'try' body 'except_Exception' e '=>' handler" :=
  (try_except_Exception body (fun e => handler))
  (at level 10, e name, body at level 200, handler at level 200) : py_scope.

(** How the interpreter ends after running a module: normally, with exit
    status 0, or on an exception nothing caught. *)
Inductive termination : Type :=
| ExitNormally
| UnhandledException (e : PyExc).

Definition run_script (main : M unit) (w : World) : termination * World :=
  match main w with
  | (Ok _, w') => (ExitNormally, w')
  | (Raise e, w') => (UnhandledException e, w')
  end.

(** ** The two scripts *)

Local Open Scope py_scope.

Module TestChatApi.

Definition url : pystr := py "http://localhost:5130/api/chat".

Definition payload : pyval :=
  dict_display
    [ (KStr (py "userId"), PStr (py "user-123"));
      (KStr (py "message"),
       PStr (py "Hello, this is a test message to verify IMessage conversion"));
      (KStr (py "systemPrompt"), PStr (py "You are a helpful assistant.")) ].

Definition headers : list (pystr * pystr) :=
  [ (py "Content-Type", py "application/json") ].

Definition main : M unit :=
  try
    (response <- requests_post url (Json.dumps payload) headers ;;
     print (py "Status Code: " ++ str_int (status_code response)) ;;
     print (py "Response: " ++ text response))
  except_Exception e =>
    print (py "Error: " ++ str_exc e).

End TestChatApi.

Module TestIMessageConversion.

Definition url : pystr := py "http://localhost:5130/api/chat".

Definition payload : pyval :=
  dict_display
    [ (KStr (py "message"),
       PStr (py "Hello, this is a test message to verify IMessage conversion"));
      (KStr (py "conversationId"), PStr (py "test-conversation-456")) ].

Definition headers : list (pystr * pystr) :=
  [ (py "Content-Type", py "application/json") ].

Definition main : M unit :=
  try
    (response <- requests_post url (Json.dumps payload) headers ;;
     print (py "Status Code: " ++ str_int (status_code response)) ;;
     print (py "Response: " ++ text response))
  except_Exception e =>
    print (py "Error: " ++ str_exc e).

End TestIMessageConversion.

(** The two scripts of the repository, and what each one names [main],
    [url], [payload] and [headers]. *)
Inductive script : Type :=
| test_chat_api
| test_imessage_conversion.

Definition main_of (s : script) : M unit :=
  match s with
  | test_chat_api => TestChatApi.main
  | test_imessage_conversion => TestIMessageConversion.main
  end.

Definition url_of (s : script) : pystr :=
  match s with
  | test_chat_api => TestChatApi.url
  | test_imessage_conversion => TestIMessageConversion.url
  end.

Definition payload_of (s : script) : pyval :=
  match s with
  | test_chat_api => TestChatApi.payload
  | test_imessage_conversion => TestIMessageConversion.payload
  end.

Definition headers_of (s : script) : list (pystr * pystr) :=
  match s with
  | test_chat_api => TestChatApi.headers
  | test_imessage_conversion => TestIMessageConversion.headers
  end.

(** The request the arguments of the script's [requests.post] call
    describe. *)
Definition request_of (s : script) : Request :=
  mkRequest POST (url_of s) (Json.dumps (payload_of s)) (headers_of s).

(** A payload with one key, whose value is the two code points U+D83D and
    U+DE00 (in Python source, the literal with the escapes \ud83d\ude00). *)
Definition lone_pair_payload : list (pystr * pystr) :=
  [ (py "k", [0xd83d; 0xde00]%N) ].

(** ** What the encoder and the decoder make of a string *)

(** Printable ASCII: from the space to the tilde. *)
Definition printable_ascii (c : N) : Prop := (0x20 <= c <= 0x7e)%N.

(** The characters [encode_basestring_ascii] copies as they are. *)
Definition copied_as_is (c : N) : bool := negb (Json.ESCAPE_ASCII c).

(** What [scanstring] returns for the escapes [encode_basestring_ascii]
    writes for [s]: a high surrogate immediately followed by a low
    surrogate comes back as the one code point [join_surrogates] computes,
    every other code point as itself. *)
Fixpoint join_surrogate_pairs (s : pystr) : pystr :=
  match s with
  | [] => []
  | c :: s' =>
      match s' with
      | [] => [c]
      | c' :: s'' =>
          if is_high_surrogate c && is_low_surrogate c'
          then Json.join_surrogates c c' :: join_surrogate_pairs s''
          else c :: join_surrogate_pairs s'
      end
  end.

(** The item a decoded member gives for the item [kv] of the payload. *)
Definition joined_item (kv : pystr * pystr) : pykey * pyval :=
  (KStr (join_surrogate_pairs (fst kv)), PStr (join_surrogate_pairs (snd kv))).

(** ** The one-shot request sender of the specification

    The specification's contract, in its words: given the target URL (a
    fixed string), a payload and the headers (fixed: content type JSON),
    perform a single POST and report the outcome; on success, whatever the
    status code, print the numeric status code and the raw body; on a
    failure, catch it and print a message.  The specification's failures
    are the instances of [Exception]; it says nothing of the others, which
    are left to propagate. *)
Module Spec.

Definition target_url : pystr := py "http://localhost:5130/api/chat".

Definition fixed_headers : list (pystr * pystr) :=
  [ (py "Content-Type", py "application/json") ].

Definition request_for (payload : pyval) : Request :=
  mkRequest POST target_url (Json.dumps payload) fixed_headers.

Definition success_output (r : Response) : list pystr :=
  [ py "Status Code: " ++ str_int (status_code r);
    py "Response: " ++ text r ].

Definition error_output (e : PyExc) : list pystr :=
  [ py "Error: " ++ str_exc e ].

Definition one_shot_sender (payload : pyval) : M unit :=
  fun w =>
    let req := request_for payload in
    let report (lines : list pystr) : World :=
      mkWorld (argv w) (environ w) (stdin w) (network w)
              (sent w ++ [req]) (stdout w ++ lines) in
    match network w (List.length (sent w)) req with
    | Ok r => (Ok tt, report (success_output r))
    | Raise e =>
        if isinstance_Exception e then (Ok tt, report (error_output e))
        else (Raise e, report [])
    end.

End Spec.

(** * Properties *)

(** ** Running the scripts *)

Lemma app_assoc_two {A} (l : list A) (x y : A) :
  (l ++ [x]) ++ [y] = l ++ [x; y].
Proof. now rewrite <- app_assoc. Qed.

(** Unfolds a script down to the answer of the network. *)
Ltac step_script :=
  unfold TestChatApi.main, TestIMessageConversion.main,
    try_except_Exception, bind, requests_post, print;
  cbn [argv environ stdin network sent stdout fst snd].

(** What [TestChatApi.main] does, by the answer of the network. *)
Lemma chat_main_run (w : World) :
  TestChatApi.main w =
  let req := mkRequest POST TestChatApi.url (Json.dumps TestChatApi.payload)
                       TestChatApi.headers in
  let report lines :=
    mkWorld (argv w) (environ w) (stdin w) (network w)
            (sent w ++ [req]) (stdout w ++ lines) in
  match network w (List.length (sent w)) req with
  | Ok r => (Ok tt, report [ py "Status Code: " ++ str_int (status_code r);
                             py "Response: " ++ text r ])
  | Raise e =>
      if isinstance_Exception e
      then (Ok tt, report [ py "Error: " ++ str_exc e ])
      else (Raise e, report [])
  end.
Proof.
  step_script.
  destruct (network w _ _) as [r | e]; cbn [argv environ stdin network sent stdout].
  - now rewrite app_assoc_two.
  - destruct (isinstance_Exception e); cbn [argv environ stdin network sent stdout];
      now rewrite ?app_nil_r.
Qed.

(** What [TestIMessageConversion.main] does, by the answer of the network. *)
Lemma imessage_main_run (w : World) :
  TestIMessageConversion.main w =
  let req := mkRequest POST TestIMessageConversion.url
                       (Json.dumps TestIMessageConversion.payload)
                       TestIMessageConversion.headers in
  let report lines :=
    mkWorld (argv w) (environ w) (stdin w) (network w)
            (sent w ++ [req]) (stdout w ++ lines) in
  match network w (List.length (sent w)) req with
  | Ok r => (Ok tt, report [ py "Status Code: " ++ str_int (status_code r);
                             py "Response: " ++ text r ])
  | Raise e =>
      if isinstance_Exception e
      then (Ok tt, report [ py "Error: " ++ str_exc e ])
      else (Raise e, report [])
  end.
Proof.
  step_script.
  destruct (network w _ _) as [r | e]; cbn [argv environ stdin network sent stdout].
  - now rewrite app_assoc_two.
  - destruct (isinstance_Exception e); cbn [argv environ stdin network sent stdout];
      now rewrite ?app_nil_r.
Qed.

(** ** Arithmetic of the escapes *)

Module JsonFacts.
Import Json.
Local Open Scope N_scope.

Ltac Zify.zify_post_hook ::= Z.to_euclidean_division_equations.

Lemma lor_mul_pow2_add (a k l : N) :
  l < 2 ^ k -> N.lor (a * 2 ^ k) l = a * 2 ^ k + l.
Proof.
  intros Hl.
  assert (Hland : N.land (a * 2 ^ k) l = 0).
  { apply N.bits_inj_0; intros i.
    rewrite N.land_spec, <- N.shiftl_mul_pow2.
    destruct (N.ltb_spec i k) as [Hik | Hki].
    - now rewrite N.shiftl_spec_low.
    - assert (Hbit : N.testbit l i = false).
      { destruct (N.eq_dec l 0) as [-> | Hnz]; [apply N.bits_0 |].
        apply N.bits_above_log2.
        apply N.log2_lt_pow2; [lia |].
        apply N.lt_le_trans with (2 ^ k); [assumption |].
        apply N.pow_le_mono_r; lia. }
      rewrite Hbit. apply andb_false_r. }
  now rewrite N.add_nocarry_lxor, N.lxor_lor.
Qed.

Lemma land_15 (x : N) : N.land x 15 = x mod 16.
Proof. exact (N.land_ones x 4). Qed.

Lemma land_0x3ff (x : N) : N.land x 0x3ff = x mod 1024.
Proof. exact (N.land_ones x 10). Qed.

Lemma shiftr_const (x k : N) : N.shiftr x k = x / 2 ^ k.
Proof. apply N.shiftr_div_pow2. Qed.

(** The high and the low surrogate [replace] computes for an astral code
    point. *)
Lemma high_surrogate_value (n : N) :
  n < 0x100000 ->
  N.lor 0xd800 (N.land (N.shiftr n 10) 0x3ff) = 0xd800 + n / 1024.
Proof.
  intros Hn. rewrite land_0x3ff, shiftr_const.
  change 0xd800 with (54 * 2 ^ 10). change (2 ^ 10) with 1024.
  assert (Hq : (n / 1024) mod 1024 = n / 1024) by lia.
  rewrite Hq. change 1024 with (2 ^ 10) at 1 3.
  apply lor_mul_pow2_add. change (2 ^ 10) with 1024. lia.
Qed.

Lemma low_surrogate_value (n : N) :
  N.lor 0xdc00 (N.land n 0x3ff) = 0xdc00 + n mod 1024.
Proof.
  rewrite land_0x3ff.
  change 0xdc00 with (55 * 2 ^ 10).
  apply lor_mul_pow2_add. change (2 ^ 10) with 1024. lia.
Qed.

Lemma join_surrogates_value (h l : N) :
  l < 1024 ->
  join_surrogates (0xd800 + h) (0xdc00 + l) = 0x10000 + h * 1024 + l.
Proof.
  intros Hl. unfold join_surrogates.
  replace (0xd800 + h - 0xd800) with h by lia.
  replace (0xdc00 + l - 0xdc00) with l by lia.
  rewrite N.shiftl_mul_pow2, lor_mul_pow2_add by (change (2 ^ 10) with 1024; lia).
  change (2 ^ 10) with 1024. lia.
Qed.

(** Decoding the pair gives the code point back. *)
Lemma join_surrogates_replace (c : N) :
  0x10000 <= c < 0x110000 ->
  let n := c - 0x10000 in
  join_surrogates (N.lor 0xd800 (N.land (N.shiftr n 10) 0x3ff))
                  (N.lor 0xdc00 (N.land n 0x3ff)) = c.
Proof.
  intros Hc n.
  rewrite high_surrogate_value, low_surrogate_value by (subst n; lia).
  rewrite join_surrogates_value by lia.
  subst n. lia.
Qed.

Lemma hexval_hexdigit (d : N) : d < 16 -> hexval (hexdigit d) = Some d.
Proof.
  intros Hd.
  assert (H : In d [0;1;2;3;4;5;6;7;8;9;10;11;12;13;14;15]).
  { cbn [In]. lia. }
  cbn [In] in H.
  repeat (destruct H as [<- | H]; [reflexivity |]).
  contradiction.
Qed.

(** [int(esc, 16)] reads back what ['{0:04x}'.format(n)] wrote. *)
Lemma decode_format_04x (n : N) :
  n < 0x10000 ->
  decode_uXXXX (hexdigit (N.land (N.shiftr n 12) 15))
               (hexdigit (N.land (N.shiftr n 8) 15))
               (hexdigit (N.land (N.shiftr n 4) 15))
               (hexdigit (N.land n 15)) = Some n.
Proof.
  intros Hn. unfold decode_uXXXX.
  rewrite !land_15, !shiftr_const.
  change (2 ^ 12) with 4096. change (2 ^ 8) with 256. change (2 ^ 4) with 16.
  rewrite !hexval_hexdigit by lia.
  f_equal. lia.
Qed.

(** ** [scanstring] reads back what [encode_basestring_ascii] wrote *)

Lemma escape_sub_cons (c : N) (s : pystr) :
  escape_sub (c :: s) = chunk c ++ escape_sub s.
Proof. reflexivity. Qed.

Lemma scanstring_plain (c : N) (r : pystr) :
  ESCAPE_ASCII c = false ->
  scanstring (c :: r) = append_char c (scanstring r).
Proof.
  unfold ESCAPE_ASCII. intros H.
  apply orb_false_iff in H as [H H4].
  apply orb_false_iff in H as [H H3].
  apply orb_false_iff in H as [H1 H2].
  cbn [scanstring]. now rewrite H2, H1, H3.
Qed.

Lemma scanstring_u_eq (h1 h2 h3 h4 : N) (r2 : pystr) :
  scanstring (BSLASH :: ord "u" :: h1 :: h2 :: h3 :: h4 :: r2) =
  match decode_uXXXX h1 h2 h3 h4 with
  | None => Failed JSONDecodeError
  | Some uni =>
      if is_high_surrogate uni then
        match r2 with
        | b :: u :: r3 =>
            if (b =? BSLASH) && (u =? ord "u") then
              match r3 with
              | g1 :: g2 :: g3 :: g4 :: r4 =>
                  match decode_uXXXX g1 g2 g3 g4 with
                  | None => Failed JSONDecodeError
                  | Some uni2 =>
                      if is_low_surrogate uni2 then
                        append_char (join_surrogates uni uni2) (scanstring r4)
                      else append_char uni (scanstring r2)
                  end
              | _ => Failed JSONDecodeError
              end
            else append_char uni (scanstring r2)
        | _ => append_char uni (scanstring r2)
        end
      else append_char uni (scanstring r2)
  end.
Proof. reflexivity. Qed.

Lemma scanstring_u_bmp (n : N) (rest : pystr) :
  n < 0x10000 ->
  (is_high_surrogate n = true -> lone_ok rest) ->
  scanstring (BSLASH :: ord "u" :: format_04x n ++ rest)
  = append_char n (scanstring rest).
Proof.
  intros Hn Hlone. unfold format_04x. cbn [app].
  rewrite scanstring_u_eq, decode_format_04x by assumption.
  destruct (is_high_surrogate n); [| reflexivity].
  specialize (Hlone eq_refl).
  destruct rest as [| b [| u r3]]; try reflexivity.
  cbn [lone_ok] in Hlone.
  destruct ((b =? BSLASH) && (u =? ord "u")); [| reflexivity].
  destruct (Hlone eq_refl) as (x & r4 & Hx & Hlow & ->).
  unfold format_04x. cbn [app].
  now rewrite decode_format_04x, Hlow.
Qed.

Lemma scanstring_u_astral (c : N) (rest : pystr) :
  0x10000 <= c < 0x110000 ->
  let n := c - 0x10000 in
  let s1 := N.lor 0xd800 (N.land (N.shiftr n 10) 0x3ff) in
  let s2 := N.lor 0xdc00 (N.land n 0x3ff) in
  scanstring (BSLASH :: ord "u" :: format_04x s1
              ++ BSLASH :: ord "u" :: format_04x s2 ++ rest)
  = append_char c (scanstring rest).
Proof.
  intros Hc n s1 s2.
  assert (Hj : join_surrogates s1 s2 = c) by (apply join_surrogates_replace; lia).
  assert (H1 : s1 = 0xd800 + n / 1024)
    by (apply high_surrogate_value; subst n; lia).
  assert (H2 : s2 = 0xdc00 + n mod 1024) by apply low_surrogate_value.
  assert (Hhigh : is_high_surrogate s1 = true).
  { unfold is_high_surrogate. apply andb_true_iff.
    split; apply N.leb_le; subst n; lia. }
  assert (Hlow : is_low_surrogate s2 = true).
  { unfold is_low_surrogate. apply andb_true_iff.
    split; apply N.leb_le; lia. }
  unfold format_04x. cbn [app].
  rewrite scanstring_u_eq, decode_format_04x by (subst n; lia).
  rewrite Hhigh.
  change ((BSLASH =? BSLASH) && (ord "u" =? ord "u")) with true. cbv iota.
  rewrite decode_format_04x by lia.
  now rewrite Hlow, Hj.
Qed.

(** The seven two-character escapes and the characters they stand for. *)
Lemma ESCAPE_DCT_cases (c : N) (e : pystr) :
  ESCAPE_DCT c = Some e ->
  (In (c, e) [ (BSLASH, [BSLASH; BSLASH]); (DQUOTE, [BSLASH; DQUOTE]);
               (8, [BSLASH; ord "b"]); (12, [BSLASH; ord "f"]);
               (10, [BSLASH; ord "n"]); (13, [BSLASH; ord "r"]);
               (9, [BSLASH; ord "t"]) ])
  \/ (c < 0x20 /\ e = [BSLASH; ord "u"] ++ format_04x c).
Proof.
  unfold ESCAPE_DCT. intros H.
  repeat match type of H with
         | (if ?c =? ?k then _ else _) = _ =>
             destruct (N.eqb_spec c k) as [-> | _];
             [ injection H as <-; left; cbn [In]; tauto |]
         end.
  destruct (N.ltb_spec c 0x20); [| discriminate].
  injection H as <-. right. split; [assumption | reflexivity].
Qed.

(** One character: [scanstring] undoes [chunk]. *)
Lemma scanstring_chunk (c : N) (rest : pystr) :
  valid_codepoint c ->
  (is_high_surrogate c = true -> lone_ok rest) ->
  scanstring (chunk c ++ rest) = append_char c (scanstring rest).
Proof.
  unfold valid_codepoint, chunk. intros Hc Hlone.
  destruct (ESCAPE_ASCII c) eqn:E; [| now apply scanstring_plain].
  unfold replace.
  destruct (ESCAPE_DCT c) as [e |] eqn:D.
  - apply ESCAPE_DCT_cases in D as [D | [Hlt ->]].
    + cbn [In] in D.
      repeat (destruct D as [D | D]; [injection D as <- <-; reflexivity |]).
      contradiction.
    + apply scanstring_u_bmp; [lia | assumption].
  - cbv zeta. destruct (N.ltb_spec c 0x10000).
    + now apply scanstring_u_bmp.
    + rewrite <- app_assoc. cbn [app].
      apply scanstring_u_astral. lia.
Qed.

(** What follows a character in the output never continues a lone high
    surrogate, unless the next character is a low surrogate. *)
Lemma lone_ok_next (s' : pystr) (tail : pystr) :
  valid_str s' ->
  match s' with c' :: _ => is_low_surrogate c' = false | [] => True end ->
  lone_ok (escape_sub s' ++ DQUOTE :: tail).
Proof.
  intros Hv Hnext.
  destruct s' as [| c' s''].
  - cbn [escape_sub flat_map app].
    destruct tail as [| u r3]; [exact I |].
    cbn [lone_ok]. change (DQUOTE =? BSLASH) with false. discriminate.
  - rewrite escape_sub_cons, <- app_assoc.
    set (R := escape_sub s'' ++ DQUOTE :: tail).
    assert (Hc' : c' < 0x110000) by (inversion Hv; assumption).
    unfold chunk.
    destruct (ESCAPE_ASCII c') eqn:E.
    + unfold replace.
      destruct (ESCAPE_DCT c') as [e |] eqn:D.
      * apply ESCAPE_DCT_cases in D as [D | [Hlt ->]].
        -- cbn [In] in D.
           repeat (destruct D as [D | D];
                   [injection D as <- <-; cbn [app lone_ok]; discriminate |]).
           contradiction.
        -- cbn [app lone_ok]. intros _. exists c', R. repeat split; [lia | assumption].
      * cbv zeta. destruct (N.ltb_spec c' 0x10000).
        -- cbn [app lone_ok]. intros _. exists c', R. repeat split; assumption.
        -- cbn [app lone_ok]. intros _.
           eexists _, _. repeat split.
           ++ rewrite high_surrogate_value by lia. lia.
           ++ rewrite high_surrogate_value by lia.
              unfold is_low_surrogate.
              destruct (N.leb_spec 0xdc00 (0xd800 + (c' - 0x10000) / 1024));
                [lia | reflexivity].
    + cbn [app]. subst R.
      destruct (escape_sub s'' ++ DQUOTE :: tail) as [| u r3] eqn:ER.
      * exact I.
      * cbn [lone_ok]. unfold ESCAPE_ASCII in E.
        destruct (N.eqb_spec c' BSLASH); [discriminate | cbn [andb]; discriminate].
Qed.

Lemma no_surrogate_pair_tail (c : N) (s : pystr) :
  no_surrogate_pair (c :: s) = true -> no_surrogate_pair s = true.
Proof.
  cbn [no_surrogate_pair]. destruct s as [| c' s']; [reflexivity |].
  intros H. now apply andb_true_iff in H as [_ H].
Qed.

Lemma no_surrogate_pair_head (c : N) (s : pystr) :
  no_surrogate_pair (c :: s) = true ->
  is_high_surrogate c = true ->
  match s with c' :: _ => is_low_surrogate c' = false | [] => True end.
Proof.
  destruct s as [| c' s']; [trivial |].
  cbn [no_surrogate_pair]. intros H Hh.
  apply andb_true_iff in H as [H _]. rewrite Hh in H.
  now destruct (is_low_surrogate c').
Qed.

(** The string: [scanstring] returns the encoded string and the text after
    its closing quote. *)
Lemma scanstring_escape_sub (s tail : pystr) :
  valid_str s ->
  no_surrogate_pair s = true ->
  scanstring (escape_sub s ++ DQUOTE :: tail) = Parsed (s, tail).
Proof.
  induction s as [| c s IH]; intros Hv Hp.
  - reflexivity.
  - rewrite escape_sub_cons, <- app_assoc.
    rewrite scanstring_chunk.
    + rewrite IH; [reflexivity | now inversion Hv |].
      eapply no_surrogate_pair_tail; eassumption.
    + now inversion Hv.
    + intros Hh. apply lone_ok_next; [now inversion Hv |].
      eapply no_surrogate_pair_head; eassumption.
Qed.

(** ** [JSONObject] reads back what [_iterencode_dict] wrote *)

Lemma pystr_eqb_eq (a b : pystr) : pystr_eqb a b = true <-> a = b.
Proof.
  revert b. induction a as [| x a IH]; intros [| y b]; cbn [pystr_eqb];
    try (split; [discriminate | discriminate]); [tauto |].
  rewrite andb_true_iff, N.eqb_eq, IH.
  split; [intros [-> ->]; reflexivity | intros [= -> ->]; auto].
Qed.

Lemma dict_setitem_fresh (d : list (pystr * pystr)) (k v : pystr) :
  ~ In k (map fst d) ->
  dict_setitem (map str_item d) (KStr k) (PStr v) = map str_item (d ++ [(k, v)]).
Proof.
  induction d as [| [k' v'] d IH]; intros Hin; [reflexivity |].
  cbn [map str_item fst snd dict_setitem pykey_eqb app] in *.
  destruct (pystr_eqb k' k) eqn:E.
  - apply pystr_eqb_eq in E. exfalso. apply Hin. now left.
  - f_equal. apply IH. intros H. apply Hin. now right.
Qed.

Lemma fold_setitem_fresh (p acc : list (pystr * pystr)) :
  NoDup (map fst (acc ++ p)) ->
  fold_left (fun d kv => dict_setitem d (fst kv) (snd kv))
            (map str_item p) (map str_item acc)
  = map str_item (acc ++ p).
Proof.
  revert acc. induction p as [| [k v] p IH]; intros acc Hnd.
  - now rewrite app_nil_r.
  - cbn [map fold_left str_item fst snd].
    rewrite dict_setitem_fresh.
    + rewrite IH; rewrite <- app_assoc; [reflexivity | exact Hnd].
    + rewrite map_app in Hnd. cbn [map fst] in Hnd.
      apply NoDup_remove_2 in Hnd.
      intros H. apply Hnd. apply in_or_app. now left.
Qed.

(** A dict display with distinct string keys is the list of its items. *)
Lemma dict_display_str_str (p : list (pystr * pystr)) :
  NoDup (map fst p) -> dict_display (map str_item p) = str_str_dict p.
Proof.
  intros Hnd. unfold dict_display, str_str_dict.
  f_equal. exact (fold_setitem_fresh p [] Hnd).
Qed.

Lemma iterencode_str_str_dict (p : list (pystr * pystr)) :
  iterencode (str_str_dict p) =
  match p with
  | [] => py "{}"
  | _ => py "{" ++ str_str_members true p ++ py "}"
  end.
Proof.
  destruct p as [| [k v] p]; [reflexivity |].
  unfold str_str_dict.
  cbn [map iterencode str_str_members str_item fst snd encode_key].
  do 6 f_equal.
  match goal with
  | |- ?F false (map ?g p) = _ =>
      enough (H : forall first, F first (map g p) = str_str_members first p)
        by apply H
  end.
  induction p as [| [k' v'] p IH]; intros first; [reflexivity |].
  cbn [map fst snd str_item str_str_members encode_key iterencode].
  now rewrite IH.
Qed.

Lemma encode_basestring_ascii_app (s R : pystr) :
  encode_basestring_ascii s ++ R = DQUOTE :: escape_sub s ++ DQUOTE :: R.
Proof.
  unfold encode_basestring_ascii. cbn [app]. now rewrite <- app_assoc.
Qed.

Lemma members_first (k v : pystr) (p : list (pystr * pystr)) (R : pystr) :
  str_str_members true ((k, v) :: p) ++ R
  = DQUOTE :: member_text k v (str_str_members false p ++ R).
Proof.
  cbn [str_str_members app]. unfold member_text.
  rewrite <- !app_assoc, encode_basestring_ascii_app.
  change (key_separator ++ ?X) with (ord ":" :: 32 :: X).
  now rewrite encode_basestring_ascii_app.
Qed.

Lemma members_next (k v : pystr) (p : list (pystr * pystr)) (R : pystr) :
  str_str_members false ((k, v) :: p) ++ R
  = ord "," :: 32 :: DQUOTE :: member_text k v (str_str_members false p ++ R).
Proof.
  cbn [str_str_members]. unfold member_text.
  rewrite <- !app_assoc, encode_basestring_ascii_app.
  change (item_separator ++ ?X) with (ord "," :: 32 :: X).
  change (key_separator ++ ?X) with (ord ":" :: 32 :: X).
  now rewrite encode_basestring_ascii_app.
Qed.

Lemma skip_ws_colon (X : pystr) : skip_ws (ord ":" :: X) = ord ":" :: X.
Proof. reflexivity. Qed.

Lemma skip_ws_comma (X : pystr) : skip_ws (ord "," :: X) = ord "," :: X.
Proof. reflexivity. Qed.

Lemma skip_ws_close (X : pystr) : skip_ws (ord "}" :: X) = ord "}" :: X.
Proof. reflexivity. Qed.

Lemma skip_ws_space_quote (X : pystr) : skip_ws (32 :: DQUOTE :: X) = DQUOTE :: X.
Proof. reflexivity. Qed.

Lemma skip_ws_quote (X : pystr) : skip_ws (DQUOTE :: X) = DQUOTE :: X.
Proof. reflexivity. Qed.

Lemma scan_once_quote (X : pystr) :
  scan_once (DQUOTE :: X) =
  match scanstring X with
  | Parsed (v, r') => Parsed (PStr v, r')
  | Failed e => Failed e
  end.
Proof. reflexivity. Qed.

(** One round of the loop of [JSONObject] over the text of a member. *)
Lemma JSONObject_loop_round (fuel : nat) (k v R : pystr)
    (acc : list (pykey * pyval)) :
  valid_str k -> no_surrogate_pair k = true ->
  valid_str v -> no_surrogate_pair v = true ->
  JSONObject_loop (S fuel) (member_text k v R) acc =
  match skip_ws R with
  | [] => Failed JSONDecodeError
  | nextchar :: s4 =>
      if nextchar =? ord "}" then Parsed (acc ++ [(KStr k, PStr v)], s4)
      else if negb (nextchar =? ord ",") then Failed JSONDecodeError
      else
        match skip_ws s4 with
        | [] => Failed JSONDecodeError
        | q :: s5 =>
            if negb (q =? DQUOTE) then Failed JSONDecodeError
            else JSONObject_loop fuel s5 (acc ++ [(KStr k, PStr v)])
        end
  end.
Proof.
  intros Hk1 Hk2 Hv1 Hv2.
  unfold member_text. cbn [JSONObject_loop].
  rewrite scanstring_escape_sub by assumption.
  rewrite skip_ws_colon. cbv iota.
  change (negb (ord ":" =? ord ":")) with false. cbv iota.
  rewrite skip_ws_space_quote, scan_once_quote.
  rewrite scanstring_escape_sub by assumption.
  reflexivity.
Qed.

Lemma JSONObject_loop_members (p : list (pystr * pystr)) :
  forall (k v : pystr) (fuel : nat) (acc : list (pykey * pyval)) (tail : pystr),
    (List.length p < fuel)%nat ->
    wf_str k -> wf_str v ->
    Forall (fun kv => wf_str (fst kv) /\ wf_str (snd kv)) p ->
    JSONObject_loop fuel
      (member_text k v (str_str_members false p ++ py "}" ++ tail)) acc
    = Parsed (acc ++ map str_item ((k, v) :: p), tail).
Proof.
  induction p as [| [k' v'] p IH];
    intros k v fuel acc tail Hfuel [Hk1 Hk2] [Hv1 Hv2] Hp;
    (destruct fuel as [| fuel]; [cbn [List.length] in Hfuel; lia |]);
    rewrite JSONObject_loop_round by assumption.
  - cbn [str_str_members app].
    change (py "}" ++ tail) with (ord "}" :: tail).
    rewrite skip_ws_close.
    change (ord "}" =? ord "}") with true. cbv iota. reflexivity.
  - rewrite members_next, skip_ws_comma.
    change (ord "," =? ord "}") with false.
    change (negb (ord "," =? ord ",")) with false. cbv iota.
    rewrite skip_ws_space_quote.
    change (negb (DQUOTE =? DQUOTE)) with false. cbv iota.
    inversion Hp as [| ? ? [Hk' Hv'] Hp']; subst.
    cbn [fst snd] in Hk', Hv'.
    rewrite IH; try assumption.
    + cbn [map]. rewrite <- app_assoc. reflexivity.
    + cbn [List.length] in Hfuel. lia.
Qed.

Lemma members_length (p : list (pystr * pystr)) (first : bool) :
  (List.length p <= List.length (str_str_members first p))%nat.
Proof.
  revert first. induction p as [| [k v] p IH]; intros first; [apply le_n |].
  cbn [str_str_members List.length].
  rewrite !length_app. unfold encode_basestring_ascii.
  rewrite !length_app. cbn [List.length].
  specialize (IH false). lia.
Qed.

(** ** The fuel of [JSONObject] is enough *)

Lemma append_char_inv (x : N) (res : parsed (pystr * pystr)) (c r : pystr) :
  append_char x res = Parsed (c, r) -> exists c', res = Parsed (c', r).
Proof.
  destruct res as [[c' r'] | e]; cbn [append_char]; [| discriminate].
  intros [= <- <-]. now exists c'.
Qed.

(** [scanstring] consumes at least the closing quote. *)
Lemma scanstring_shorter_bounded (n : nat) :
  forall (s c r : pystr),
    (List.length s <= n)%nat ->
    scanstring s = Parsed (c, r) -> (List.length r < List.length s)%nat.
Proof.
  induction n as [| n IH]; intros s c r Hlen H.
  - destruct s; [discriminate | cbn [List.length] in Hlen; lia].
  - destruct s as [| a s]; [discriminate |].
    cbn [scanstring] in H. cbn [List.length] in Hlen.
    repeat match type of H with
           | (if ?b then _ else _) = _ => destruct b
           | match ?x with _ => _ end = _ => destruct x
           | append_char _ _ = _ =>
               apply append_char_inv in H as [c' H];
               apply IH in H; cbn [List.length] in *; lia
           | Parsed _ = Parsed _ =>
               injection H as <- <-; cbn [List.length]; lia
           | Failed _ = _ => discriminate H
           end.
Qed.

Lemma scanstring_shorter (s c r : pystr) :
  scanstring s = Parsed (c, r) -> (List.length r < List.length s)%nat.
Proof. apply (scanstring_shorter_bounded (List.length s)). apply le_n. Qed.

Lemma skip_ws_length (s : pystr) :
  (List.length (skip_ws s) <= List.length s)%nat.
Proof.
  induction s as [| c s IH]; [apply le_n |].
  cbn [skip_ws]. destruct (is_ws c); cbn [List.length] in *; lia.
Qed.

Lemma scan_once_shorter (s r : pystr) (v : pyval) :
  scan_once s = Parsed (v, r) -> (List.length r < List.length s)%nat.
Proof.
  destruct s as [| c s]; [discriminate |]. cbn [scan_once].
  destruct (c =? DQUOTE).
  - destruct (scanstring s) as [[c' r'] | e] eqn:E; [| discriminate].
    intros [= <- <-]. apply scanstring_shorter in E. cbn [List.length]. lia.
  - destruct (starts_other_value c); discriminate.
Qed.

Lemma scan_once_fuel (s : pystr) : scan_once s <> Failed OutOfFuel.
Proof.
  destruct s as [| c s]; [discriminate |]. cbn [scan_once].
  destruct (c =? DQUOTE).
  - destruct (scanstring s) as [[c' r'] | e] eqn:E; [discriminate |].
    intros [= ->]. revert E. clear. revert s.
    assert (H : forall n s, (List.length s <= n)%nat ->
                            scanstring s <> Failed OutOfFuel).
    { induction n as [| n IH]; intros s Hlen H.
      - destruct s; [discriminate | cbn [List.length] in Hlen; lia].
      - destruct s as [| a s]; [discriminate |].
        cbn [scanstring] in H. cbn [List.length] in Hlen.
        repeat match type of H with
               | (if ?b then _ else _) = _ => destruct b
               | match ?x with _ => _ end = _ => destruct x
               | append_char _ ?res = _ =>
                   let E := fresh "E" in
                   destruct res as [[? ?] | ?] eqn:E;
                   [discriminate H |];
                   cbn [append_char] in H; injection H as ->;
                   apply IH in E; [exact E | cbn [List.length] in *; lia]
               | Parsed _ = _ => discriminate H
               | Failed _ = _ => discriminate H
               end. }
    intros s. apply (H (List.length s)). apply le_n.
  - destruct (starts_other_value c); discriminate.
Qed.

Lemma JSONObject_loop_fuel (fuel : nat) :
  forall (s : pystr) (acc : list (pykey * pyval)),
    (List.length s < fuel)%nat ->
    JSONObject_loop fuel s acc <> Failed OutOfFuel.
Proof.
  induction fuel as [| fuel IH]; intros s acc Hfuel; [lia |].
  cbn [JSONObject_loop].
  destruct (scanstring s) as [[key s1] | e] eqn:E1.
  2:{ intros [= ->]. revert E1.
      pose proof (scan_once_fuel (DQUOTE :: s)) as H.
      cbn [scan_once] in H. change (DQUOTE =? DQUOTE) with true in H.
      cbv iota in H. intros E1. rewrite E1 in H. now apply H. }
  apply scanstring_shorter in E1.
  pose proof (skip_ws_length s1) as L1.
  destruct (skip_ws s1) as [| c s2]; [discriminate |].
  destruct (negb (c =? ord ":")); [discriminate |].
  pose proof (skip_ws_length s2) as L2.
  destruct (scan_once (skip_ws s2)) as [[value s3] | e] eqn:E2.
  2:{ intros [= ->]. now apply (scan_once_fuel (skip_ws s2)). }
  apply scan_once_shorter in E2.
  pose proof (skip_ws_length s3) as L3.
  destruct (skip_ws s3) as [| nextchar s4]; [discriminate |].
  destruct (nextchar =? ord "}"); [discriminate |].
  destruct (negb (nextchar =? ord ",")); [discriminate |].
  pose proof (skip_ws_length s4) as L4.
  destruct (skip_ws s4) as [| q s5]; [discriminate |].
  destruct (negb (q =? DQUOTE)); [discriminate |].
  apply IH. cbn [List.length] in *. lia.
Qed.

(** [loads] never stops for lack of fuel: its answers are those of the
    decoder. *)
Lemma loads_fuel_enough (s : pystr) : loads s <> Failed OutOfFuel.
Proof.
  assert (Hobj : forall r, JSONObject r <> Failed OutOfFuel).
  { intros r. unfold JSONObject.
    destruct (skip_ws r) as [| nextchar s1]; [discriminate |].
    destruct (nextchar =? ord "}"); [discriminate |].
    destruct (negb (nextchar =? DQUOTE)); [discriminate |].
    destruct (JSONObject_loop _ s1 []) as [[pairs rest] | e] eqn:E;
      [discriminate |].
    intros [= ->]. revert E. apply JSONObject_loop_fuel. lia. }
  assert (Hraw : forall r, raw_decode r <> Failed OutOfFuel).
  { intros [| c r]; [discriminate |]. cbn [raw_decode].
    destruct (c =? ord "{"); [apply Hobj | apply scan_once_fuel]. }
  assert (Hgo : match raw_decode (skip_ws s) with
                | Failed e => Failed e
                | Parsed (obj, rest) =>
                    match skip_ws rest with
                    | [] => Parsed obj
                    | _ :: _ => Failed JSONDecodeError
                    end
                end <> Failed OutOfFuel).
  { specialize (Hraw (skip_ws s)).
    destruct (raw_decode (skip_ws s)) as [[obj rest] | e].
    - destruct (skip_ws rest); discriminate.
    - intros [= ->]. now apply Hraw. }
  unfold loads. destruct s as [| c s]; [exact Hgo |].
  destruct c as [| p]; [exact Hgo |].
  repeat (destruct p as [p | p |]; try exact Hgo); discriminate.
Qed.

End JsonFacts.

(** ** Facts about the Python primitives *)

Lemma ascii_of_codepoint_ord (l : list ascii) :
  map ascii_of_codepoint (map ord l) = l.
Proof.
  rewrite map_map. rewrite <- (map_id l) at 2.
  apply map_ext. intros a. apply ascii_N_embedding.
Qed.

(** The decimal numeral [str] writes denotes the integer. *)
Lemma int_of_str_str_int (z : Z) : int_of_str (str_int z) = Some z.
Proof.
  unfold int_of_str, str_int, py.
  rewrite ascii_of_codepoint_ord, string_of_list_ascii_of_string.
  rewrite NilZero.isi.
  - cbn [option_map]. now rewrite DecimalZ.of_to.
  - destruct z; cbn; try discriminate.
    intros [= H]. now apply DecimalPos.Unsigned.to_uint_nonnil in H.
  - destruct z; cbn; try discriminate.
    intros [= H]. now apply DecimalPos.Unsigned.to_uint_nonnil in H.
Qed.

(** The failures [requests] raises for a refused connection, a failed name
    lookup, a timeout or a malformed URL are instances of [Exception]. *)
Lemma transport_failure_is_Exception (c : exc_class) (msg : pystr) :
  In c [ConnectionError; ReadTimeout; MissingSchema; InvalidSchema; InvalidURL] ->
  isinstance_Exception (mkExc c msg) = true.
Proof.
  cbn [In]. intros H.
  repeat (destruct H as [<- | H]; [reflexivity |]). contradiction.
Qed.

(** Text without surrogates is text the decoder restores. *)
Lemma utf8_text_wf_str (s : pystr) : utf8_text s -> wf_str s.
Proof.
  unfold utf8_text, wf_str, valid_str. intros H. split.
  - eapply Forall_impl; [| exact H]. now intros c [Hc _].
  - induction H as [| c s [_ Hc] Hs IH]; [reflexivity |].
    cbn [no_surrogate_pair]. destruct s as [| c' s']; [reflexivity |].
    rewrite IH. unfold is_surrogate in Hc.
    apply orb_false_iff in Hc as [-> _]. reflexivity.
Qed.

(** What each script does, by the answer of the network. *)
Lemma script_run (s : script) (w : World) :
  main_of s w =
  let req := request_of s in
  let report lines :=
    mkWorld (argv w) (environ w) (stdin w) (network w)
            (sent w ++ [req]) (stdout w ++ lines) in
  match network w (List.length (sent w)) req with
  | Ok r => (Ok tt, report [ py "Status Code: " ++ str_int (status_code r);
                             py "Response: " ++ text r ])
  | Raise e =>
      if isinstance_Exception e
      then (Ok tt, report [ py "Error: " ++ str_exc e ])
      else (Raise e, report [])
  end.
Proof.
  destruct s; [apply chat_main_run | apply imessage_main_run].
Qed.

(** An exception that is no instance of [Exception] leaves the script. *)
Remark base_exception_propagates (s : script) (w : World) (e : PyExc) :
  network w (List.length (sent w)) (request_of s) = Raise e ->
  isinstance_Exception e = false ->
  fst (run_script (main_of s) w) = UnhandledException e.
Proof.
  intros Hnet Hcls. unfold run_script.
  rewrite script_run. cbv zeta. now rewrite Hnet, Hcls.
Qed.

(** ** The claims *)

(** C1. Whatever response the server returns, of any status, each script
    ends normally having printed two lines and nothing else: the first is
    the text Status Code, a colon, a space and the decimal numeral of the
    status; the second is the text Response, a colon, a space and the body
    as it came.  The world after the run is given in full, and the numeral
    read back is the status. *)
Theorem C1_response_printed (s : script) (args : list pystr)
    (env : list (pystr * pystr)) (input : pystr)
    (net : nat -> Request -> result Response) (r : Response) :
  net 0%nat (request_of s) = Ok r ->
  run_script (main_of s) (boot args env input net)
  = (ExitNormally,
     mkWorld args env input net [request_of s]
       [ py "Status Code: " ++ str_int (status_code r);
         py "Response: " ++ text r ])
  /\ stdout_text (snd (run_script (main_of s) (boot args env input net)))
     = py "Status Code: " ++ str_int (status_code r) ++ [10%N]
       ++ py "Response: " ++ text r ++ [10%N]
  /\ int_of_str (str_int (status_code r)) = Some (status_code r).
Proof.
  intros Hnet.
  assert (Hrun : run_script (main_of s) (boot args env input net)
                 = (ExitNormally,
                    mkWorld args env input net [request_of s]
                      [ py "Status Code: " ++ str_int (status_code r);
                        py "Response: " ++ text r ])).
  { unfold run_script. rewrite script_run. unfold boot.
    cbn [argv environ stdin network sent stdout List.length app].
    now rewrite Hnet. }
  split; [exact Hrun |]. split; [| apply int_of_str_str_int].
  rewrite Hrun. unfold stdout_text.
  cbn [snd stdout flat_map]. rewrite app_nil_r, <- !app_assoc. reflexivity.
Qed.

Lemma C1_response_printed_witness :
  (fun (_ : nat) (_ : Request) =>
     Ok (mkResponse 500 (py "Internal Server Error")))
    0%nat (request_of test_chat_api)
  = Ok (mkResponse 500 (py "Internal Server Error"))
  /\ run_script TestChatApi.main
       (boot [] [] []
          (fun _ _ => Ok (mkResponse 500 (py "Internal Server Error"))))
     = (ExitNormally,
        mkWorld [] [] []
          (fun _ _ => Ok (mkResponse 500 (py "Internal Server Error")))
          [request_of test_chat_api]
          [ py "Status Code: 500"; py "Response: Internal Server Error" ]).
Proof.
  split; [reflexivity |].
  exact (proj1 (C1_response_printed test_chat_api [] [] []
                  (fun _ _ => Ok (mkResponse 500 (py "Internal Server Error")))
                  (mkResponse 500 (py "Internal Server Error")) eq_refl)).
Defined.

(** The first scenario of the specification: status 200 and the body
    [{'reply':'ok'}] (with double quotes) give the two lines of the
    specification. *)
Example scenario_1 :
  stdout (snd (run_script TestChatApi.main
                 (boot [] [] []
                    (fun _ _ => Ok (mkResponse 200 (py_q "{'reply':'ok'}"))))))
  = [ py "Status Code: 200"; py_q "Response: {'reply':'ok'}" ].
Proof. reflexivity. Qed.

(** C2. When the POST raises a failure (an instance of [Exception], as
    every transport failure is: connection refused, name lookup, malformed
    URL, ...), each script catches it, prints one line and nothing else,
    the text Error, a colon, a space and the description of the failure,
    and ends normally: no exception leaves the process and the exit status
    is that of a normal end. *)
Theorem C2_failure_reported (s : script) (args : list pystr)
    (env : list (pystr * pystr)) (input : pystr)
    (net : nat -> Request -> result Response) (e : PyExc) :
  net 0%nat (request_of s) = Raise e ->
  isinstance_Exception e = true ->
  run_script (main_of s) (boot args env input net)
  = (ExitNormally,
     mkWorld args env input net [request_of s] [ py "Error: " ++ str_exc e ])
  /\ stdout_text (snd (run_script (main_of s) (boot args env input net)))
     = py "Error: " ++ str_exc e ++ [10%N].
Proof.
  intros Hnet Hcls.
  assert (Hrun : run_script (main_of s) (boot args env input net)
                 = (ExitNormally,
                    mkWorld args env input net [request_of s]
                      [ py "Error: " ++ str_exc e ])).
  { unfold run_script. rewrite script_run. unfold boot.
    cbn [argv environ stdin network sent stdout List.length app].
    now rewrite Hnet, Hcls. }
  split; [exact Hrun |].
  rewrite Hrun. unfold stdout_text.
  cbn [snd stdout flat_map]. rewrite app_nil_r, <- !app_assoc. reflexivity.
Qed.

Lemma C2_failure_reported_witness :
  ((fun (_ : nat) (_ : Request) =>
      @Raise Response (mkExc ConnectionError (py "Connection refused")))
     0%nat (request_of test_imessage_conversion)
   = Raise (mkExc ConnectionError (py "Connection refused"))
   /\ isinstance_Exception (mkExc ConnectionError (py "Connection refused"))
      = true)
  /\ run_script TestIMessageConversion.main
       (boot [] [] []
          (fun _ _ => Raise (mkExc ConnectionError (py "Connection refused"))))
     = (ExitNormally,
        mkWorld [] [] []
          (fun _ _ => Raise (mkExc ConnectionError (py "Connection refused")))
          [request_of test_imessage_conversion]
          [ py "Error: Connection refused" ]).
Proof.
  split; [split; reflexivity |].
  exact (proj1 (C2_failure_reported test_imessage_conversion [] [] []
                  (fun _ _ =>
                     Raise (mkExc ConnectionError (py "Connection refused")))
                  (mkExc ConnectionError (py "Connection refused"))
                  eq_refl eq_refl)).
Defined.

(** C3, as stated, fails: the dict with the key k and the two-character
    value U+D83D U+DE00 is a mapping from strings to strings, [json.dumps]
    writes the value as two [\u] escapes, and [json.loads] reads the two
    escapes as the single character U+1F600. *)
Lemma C3_surrogate_pair_not_restored :
  NoDup (map fst lone_pair_payload)
  /\ Forall (fun kv => valid_str (fst kv) /\ valid_str (snd kv))
            lone_pair_payload
  /\ Json.loads (Json.dumps (str_str_dict lone_pair_payload))
     = Json.Parsed (str_str_dict [ (py "k", [0x1f600%N]) ])
  /\ Json.loads (Json.dumps (str_str_dict lone_pair_payload))
     <> Json.Parsed (str_str_dict lone_pair_payload).
Proof.
  split; [| split; [| split]].
  - repeat constructor. intros [].
  - repeat constructor; unfold valid_codepoint; cbn; lia.
  - reflexivity.
  - intros H. vm_compute in H. discriminate H.
Qed.

(** C3, amended. For every payload with distinct string keys and string
    values, where no key and no value has a high surrogate immediately
    followed by a low surrogate (so, for every payload of text that UTF-8
    encodes), [json.loads] of [json.dumps] of the payload is the payload:
    same keys, same values, same order. *)
Theorem C3_roundtrip (p : list (pystr * pystr)) :
  NoDup (map fst p) ->
  Forall (fun kv => wf_str (fst kv) /\ wf_str (snd kv)) p ->
  Json.loads (Json.dumps (str_str_dict p)) = Json.Parsed (str_str_dict p).
Proof.
  intros Hnd Hwf. unfold Json.dumps.
  rewrite JsonFacts.iterencode_str_str_dict.
  destruct p as [| [k v] p]; [reflexivity |].
  (* the text is an opening brace, the members, a closing brace *)
  change (py "{" ++ ?X) with (ord "{" :: X).
  rewrite JsonFacts.members_first.
  unfold Json.loads.
  change (Json.skip_ws (ord "{" :: ?X)) with (ord "{" :: X).
  cbv iota.
  unfold Json.raw_decode. change (ord "{" =? ord "{")%N with true. cbv iota.
  unfold Json.JSONObject. rewrite JsonFacts.skip_ws_quote.
  change (DQUOTE =? ord "}")%N with false.
  change (negb (DQUOTE =? DQUOTE)%N) with false. cbv iota.
  (* the loop reads the members back, one round each *)
  inversion Hwf as [| ? ? [Hk Hv] Hp]; subst. cbn [fst snd] in Hk, Hv.
  replace (Json.str_str_members false p ++ py "}")
    with (Json.str_str_members false p ++ py "}" ++ [])
    by now rewrite app_nil_r.
  rewrite JsonFacts.JSONObject_loop_members; try assumption.
  - (* distinct keys: the dict built from the pairs is the list of pairs *)
    cbn [app].
    rewrite (JsonFacts.dict_display_str_str ((k, v) :: p)) by assumption.
    reflexivity.
  - (* the fuel covers the members *)
    unfold Json.member_text.
    repeat (rewrite length_app || cbn [List.length]).
    pose proof (JsonFacts.members_length p false). lia.
Qed.

Lemma C3_roundtrip_witness :
  (NoDup (map fst [ (py "a", py_q "x'\y"); (py "b", [10; 0x1f600; 0xd83d; 233]%N) ])
   /\ Forall (fun kv => wf_str (fst kv) /\ wf_str (snd kv))
        [ (py "a", py_q "x'\y"); (py "b", [10; 0x1f600; 0xd83d; 233]%N) ])
  /\ Json.loads (Json.dumps (str_str_dict
       [ (py "a", py_q "x'\y"); (py "b", [10; 0x1f600; 0xd83d; 233]%N) ]))
     = Json.Parsed (str_str_dict
       [ (py "a", py_q "x'\y"); (py "b", [10; 0x1f600; 0xd83d; 233]%N) ]).
Proof.
  assert (Hnd : NoDup (map fst [ (py "a", py_q "x'\y");
                                 (py "b", [10; 0x1f600; 0xd83d; 233]%N) ])).
  { repeat constructor; cbn; intuition discriminate. }
  assert (Hwf : Forall (fun kv => wf_str (fst kv) /\ wf_str (snd kv))
                  [ (py "a", py_q "x'\y");
                    (py "b", [10; 0x1f600; 0xd83d; 233]%N) ]).
  { repeat constructor; unfold valid_codepoint; cbn; lia. }
  split; [split; assumption |].
  exact (C3_roundtrip _ Hnd Hwf).
Defined.

(** C4. In every run, what each script sends is one POST, to the URL
    http://localhost:5130/api/chat, with the single header Content-Type:
    application/json given to [requests.post]; no other URL and no other
    header occurs in a request of the run. *)
Theorem C4_request_shape (s : script) (args : list pystr)
    (env : list (pystr * pystr)) (input : pystr)
    (net : nat -> Request -> result Response) :
  sent (snd (run_script (main_of s) (boot args env input net)))
  = [ mkRequest POST (py "http://localhost:5130/api/chat")
        (Json.dumps (payload_of s))
        [ (py "Content-Type", py "application/json") ] ]
  /\ Forall (fun req =>
               req_method req = POST
               /\ req_url req = py "http://localhost:5130/api/chat"
               /\ req_headers req = [ (py "Content-Type", py "application/json") ])
            (sent (snd (run_script (main_of s) (boot args env input net)))).
Proof.
  assert (Hsent : sent (snd (run_script (main_of s) (boot args env input net)))
                  = [request_of s]).
  { unfold run_script. rewrite script_run. unfold boot.
    cbn [argv environ stdin network sent stdout List.length app].
    destruct (net 0%nat (request_of s)) as [r | e];
      [| destruct (isinstance_Exception e)]; reflexivity. }
  rewrite Hsent. split.
  - destruct s; reflexivity.
  - constructor; [| constructor]. destruct s; repeat split.
Qed.

(** C5. The payload of the second script serialises to the JSON object with
    the two members message and conversationId, in this order, and no other
    key: the text is given in full (an apostrophe stands for a double
    quote), and decoding it gives a dict with exactly these two keys. *)
Theorem C5_imessage_body_keys :
  Json.dumps TestIMessageConversion.payload
  = py_q "{'message': 'Hello, this is a test message to verify IMessage conversion', 'conversationId': 'test-conversation-456'}"
  /\ exists v1 v2,
       Json.loads (Json.dumps TestIMessageConversion.payload)
       = Json.Parsed (PDict [ (KStr (py "message"), v1);
                              (KStr (py "conversationId"), v2) ]).
Proof.
  split; [reflexivity |].
  eexists _, _. vm_compute. reflexivity.
Qed.

(** C6. In every run, whatever the network answers or raises, each script
    sends at most one request (exactly one): from any state of the world,
    the run adds one request to those sent, and a process that starts with
    none sent ends with one. *)
Theorem C6_single_request (s : script) :
  (forall w : World,
      List.length (sent (snd (run_script (main_of s) w)))
      = S (List.length (sent w)))
  /\ (forall (args : list pystr) (env : list (pystr * pystr)) (input : pystr)
             (net : nat -> Request -> result Response),
         (List.length
            (sent (snd (run_script (main_of s) (boot args env input net))))
          <= 1)%nat).
Proof.
  assert (H : forall w : World,
             List.length (sent (snd (run_script (main_of s) w)))
             = S (List.length (sent w))).
  { intros w. unfold run_script. rewrite script_run. cbv zeta.
    destruct (network w _ _) as [r | e];
      [| destruct (isinstance_Exception e)];
      cbn [snd sent]; rewrite length_app; cbn [List.length]; lia. }
  split; [exact H |].
  intros args env input net. rewrite H. cbn [boot sent List.length]. lia.
Qed.

(** C7. The payload of each script is a dict whose keys are distinct
    strings and whose values are strings, and it is this dict that is
    serialised: the text [json.dumps] makes of it decodes to the same
    dict. *)
Theorem C7_payload_str_str (s : script) :
  exists items : list (pykey * pyval),
    payload_of s = PDict items
    /\ forallb (fun kv => is_KStr (fst kv) && is_PStr (snd kv)) items = true
    /\ NoDup (map fst items)
    /\ req_data (request_of s) = Json.dumps (PDict items)
    /\ Json.loads (Json.dumps (PDict items)) = Json.Parsed (PDict items).
Proof.
  destruct s; eexists; (split; [reflexivity |]);
    (split; [reflexivity |]);
    (split; [repeat constructor; cbn; intuition discriminate |]);
    (split; [reflexivity | vm_compute; reflexivity]).
Qed.

(** C8. The request of each script is the same in every run: it depends
    neither on the arguments, nor on the environment, nor on standard
    input, nor on the network.  And two runs in which the network gives
    the request the same answer (the same response, or the same failure)
    print the same and end the same. *)
Theorem C8_deterministic (s : script)
    (args1 args2 : list pystr) (env1 env2 : list (pystr * pystr))
    (input1 input2 : pystr) (net1 net2 : nat -> Request -> result Response) :
  sent (snd (run_script (main_of s) (boot args1 env1 input1 net1)))
  = sent (snd (run_script (main_of s) (boot args2 env2 input2 net2)))
  /\ (net1 0%nat (request_of s) = net2 0%nat (request_of s) ->
      stdout (snd (run_script (main_of s) (boot args1 env1 input1 net1)))
      = stdout (snd (run_script (main_of s) (boot args2 env2 input2 net2)))
      /\ fst (run_script (main_of s) (boot args1 env1 input1 net1))
         = fst (run_script (main_of s) (boot args2 env2 input2 net2))).
Proof.
  unfold run_script. rewrite !script_run. unfold boot.
  cbn [argv environ stdin network sent stdout List.length app].
  split.
  - destruct (net1 0%nat (request_of s)) as [r1 | e1];
      [| destruct (isinstance_Exception e1)];
      (destruct (net2 0%nat (request_of s)) as [r2 | e2];
       [| destruct (isinstance_Exception e2)]); reflexivity.
  - intros <-.
    destruct (net1 0%nat (request_of s)) as [r1 | e1];
      [| destruct (isinstance_Exception e1)]; split; reflexivity.
Qed.

Lemma C8_deterministic_witness :
  (fun (_ : nat) (_ : Request) => Ok (mkResponse 200 (py "ok")))
    0%nat (request_of test_chat_api)
  = (fun (n : nat) (_ : Request) =>
       match n with
       | O => Ok (mkResponse 200 (py "ok"))
       | S _ => Raise (mkExc ReadTimeout (py "timed out"))
       end) 0%nat (request_of test_chat_api)
  /\ stdout (snd (run_script TestChatApi.main
                    (boot [py "a"] [] (py "x")
                       (fun _ _ => Ok (mkResponse 200 (py "ok"))))))
     = stdout (snd (run_script TestChatApi.main
                      (boot [] [(py "HOME", py "/root")] []
                         (fun n _ =>
                            match n with
                            | O => Ok (mkResponse 200 (py "ok"))
                            | S _ => Raise (mkExc ReadTimeout (py "timed out"))
                            end)))).
Proof.
  split; [reflexivity |].
  exact (proj1 (proj2 (C8_deterministic test_chat_api
                         [py "a"] [] [] [(py "HOME", py "/root")] (py "x") []
                         (fun _ _ => Ok (mkResponse 200 (py "ok")))
                         (fun n _ =>
                            match n with
                            | O => Ok (mkResponse 200 (py "ok"))
                            | S _ => Raise (mkExc ReadTimeout (py "timed out"))
                            end)) eq_refl)).
Defined.

(** C9. Each script is the one-shot sender of the specification at its
    own payload: from every state of the world, the script and the sender
    give the same outcome and leave the same world. *)
Theorem C9_same_sender (s : script) (w : World) :
  main_of s w = Spec.one_shot_sender (payload_of s) w.
Proof.
  rewrite script_run. unfold Spec.one_shot_sender. cbv zeta.
  assert (Hreq : request_of s = Spec.request_for (payload_of s))
    by (destruct s; reflexivity).
  rewrite Hreq.
  destruct (network w _ _) as [r | e];
    [| destruct (isinstance_Exception e)]; reflexivity.
Qed.

(** C10. The body of the request of the first script is the text below
    (an apostrophe stands for a double quote): the keys userId, message,
    systemPrompt in the order of the dict display, a comma and a space
    between members, a colon and a space after each key, and no other
    key. *)
Theorem C10_chat_body :
  Json.dumps TestChatApi.payload
  = py_q "{'userId': 'user-123', 'message': 'Hello, this is a test message to verify IMessage conversion', 'systemPrompt': 'You are a helpful assistant.'}"
  /\ forall (args : list pystr) (env : list (pystr * pystr)) (input : pystr)
            (net : nat -> Request -> result Response),
       map req_data
           (sent (snd (run_script TestChatApi.main (boot args env input net))))
       = [ py_q "{'userId': 'user-123', 'message': 'Hello, this is a test message to verify IMessage conversion', 'systemPrompt': 'You are a helpful assistant.'}" ].
Proof.
  assert (Hbody : Json.dumps TestChatApi.payload
    = py_q "{'userId': 'user-123', 'message': 'Hello, this is a test message to verify IMessage conversion', 'systemPrompt': 'You are a helpful assistant.'}")
    by reflexivity.
  split; [exact Hbody |].
  intros args env input net. rewrite <- Hbody.
  unfold run_script. rewrite chat_main_run. unfold boot.
  cbn [argv environ stdin network sent stdout List.length app].
  destruct (net 0%nat _) as [r | e];
    [| destruct (isinstance_Exception e)]; reflexivity.
Qed.

(** * Further properties of the scripts and of the serialisation *)

(** ** What the output tells *)

(** [str] of an integer is made of digits and, at most, a minus sign. *)
Lemma string_of_uint_chars (d : Decimal.uint) :
  Forall (fun c => (48 <= c <= 57)%N) (py (NilEmpty.string_of_uint d)).
Proof.
  induction d; cbn [NilEmpty.string_of_uint];
    try (constructor; [cbn; lia | exact IHd]).
  constructor.
Qed.

Lemma str_int_chars (z : Z) :
  Forall (fun c => c = 45%N \/ (48 <= c <= 57)%N) (str_int z).
Proof.
  assert (Hu : forall d, Forall (fun c => c = 45%N \/ (48 <= c <= 57)%N)
                                (py (NilZero.string_of_uint d))).
  { intros d. unfold NilZero.string_of_uint.
    assert (H := string_of_uint_chars d).
    destruct d; try (eapply Forall_impl; [| exact H]; cbn beta; intros; now right).
    repeat constructor; cbn; lia. }
  unfold str_int. destruct (Z.to_int z) as [d | d]; cbn [NilZero.string_of_int].
  - apply Hu.
  - constructor; [now left | apply Hu].
Qed.

Lemma str_int_no_newline (z : Z) : ~ In 10%N (str_int z).
Proof.
  intros H. pose proof (str_int_chars z) as F.
  rewrite Forall_forall in F. destruct (F _ H) as [E | E]; [discriminate | lia].
Qed.

Lemma str_int_inj (a b : Z) : str_int a = str_int b -> a = b.
Proof.
  intros H. pose proof (int_of_str_str_int a) as Ha.
  rewrite H, int_of_str_str_int in Ha. now injection Ha.
Qed.

(** Two texts cut at the first occurrence of a separator. *)
Lemma app_sep_inv {A} (x : A) (l1 l2 r1 r2 : list A) :
  ~ In x l1 -> ~ In x l2 ->
  l1 ++ x :: r1 = l2 ++ x :: r2 -> l1 = l2 /\ r1 = r2.
Proof.
  revert l2. induction l1 as [| a l1 IH]; intros [| b l2] H1 H2 E;
    cbn [app] in E.
  - injection E as ->. now split.
  - injection E as -> _. exfalso. apply H2. now left.
  - injection E as -> _. exfalso. apply H1. now left.
  - injection E as -> E.
    destruct (IH l2) as [-> ->]; try assumption; [| | now split].
    + intros H. apply H1. now right.
    + intros H. apply H2. now right.
Qed.

(** The text a fresh run prints, by the answer of the network. *)
Lemma fresh_run_text (s : script) (args : list pystr)
    (env : list (pystr * pystr)) (input : pystr)
    (net : nat -> Request -> result Response) :
  stdout_text (snd (run_script (main_of s) (boot args env input net)))
  = match net 0%nat (request_of s) with
    | Ok r => py "Status Code: " ++ str_int (status_code r) ++ [10%N]
              ++ py "Response: " ++ text r ++ [10%N]
    | Raise e => if isinstance_Exception e
                 then py "Error: " ++ str_exc e ++ [10%N]
                 else []
    end.
Proof.
  unfold run_script. rewrite script_run. unfold boot, stdout_text.
  cbn [argv environ stdin network sent stdout List.length app].
  destruct (net 0%nat (request_of s)) as [r | e];
    [| destruct (isinstance_Exception e)];
    cbn [snd stdout flat_map]; rewrite ?app_nil_r, <- ?app_assoc; reflexivity.
Qed.

(** X1. An exception that [requests.post] raises and that is no instance
    of [Exception] (an interrupt from the keyboard, a [SystemExit]) is not
    caught by the [except] clause: the request has gone out, nothing is
    printed, and the process ends on the exception. *)
Theorem base_exception_not_caught (s : script) (args : list pystr)
    (env : list (pystr * pystr)) (input : pystr)
    (net : nat -> Request -> result Response) (e : PyExc) :
  net 0%nat (request_of s) = Raise e ->
  isinstance_Exception e = false ->
  run_script (main_of s) (boot args env input net)
  = (UnhandledException e, mkWorld args env input net [request_of s] []).
Proof.
  intros Hnet Hcls. unfold run_script. rewrite script_run. unfold boot.
  cbn [argv environ stdin network sent stdout List.length app].
  now rewrite Hnet, Hcls.
Qed.

Lemma base_exception_not_caught_witness :
  ((fun (_ : nat) (_ : Request) =>
      @Raise Response (mkExc KeyboardInterrupt [])) 0%nat
     (request_of test_chat_api)
   = Raise (mkExc KeyboardInterrupt [])
   /\ isinstance_Exception (mkExc KeyboardInterrupt []) = false)
  /\ run_script TestChatApi.main
       (boot [] [] [] (fun _ _ => Raise (mkExc KeyboardInterrupt [])))
     = (UnhandledException (mkExc KeyboardInterrupt []),
        mkWorld [] [] [] (fun _ _ => Raise (mkExc KeyboardInterrupt []))
                [request_of test_chat_api] []).
Proof.
  split; [split; reflexivity |].
  exact (base_exception_not_caught test_chat_api [] [] []
           (fun _ _ => Raise (mkExc KeyboardInterrupt []))
           (mkExc KeyboardInterrupt []) eq_refl eq_refl).
Defined.

(** X2. The text printed after a response tells the response: two runs,
    of either script, that both got a response and printed the same text
    got the same status and the same body, whatever the body holds (line
    feeds, or text that looks like the first line). *)
Theorem response_read_off_output (s1 s2 : script)
    (args1 args2 : list pystr) (env1 env2 : list (pystr * pystr))
    (input1 input2 : pystr) (net1 net2 : nat -> Request -> result Response)
    (r1 r2 : Response) :
  net1 0%nat (request_of s1) = Ok r1 ->
  net2 0%nat (request_of s2) = Ok r2 ->
  stdout_text (snd (run_script (main_of s1) (boot args1 env1 input1 net1)))
  = stdout_text (snd (run_script (main_of s2) (boot args2 env2 input2 net2))) ->
  r1 = r2.
Proof.
  intros H1 H2. rewrite !fresh_run_text, H1, H2. intros E.
  apply app_inv_head in E.
  cbn [app] in E.
  apply app_sep_inv in E as [Hs E]; try apply str_int_no_newline.
  apply str_int_inj in Hs.
  apply app_inv_head in E. apply app_inv_tail in E.
  destruct r1, r2. cbn [status_code text] in *. now subst.
Qed.

Lemma response_read_off_output_witness :
  ((fun (_ : nat) (_ : Request) => Ok (mkResponse 404 (py "gone")))
     0%nat (request_of test_chat_api) = Ok (mkResponse 404 (py "gone"))
   /\ (fun (_ : nat) (_ : Request) => Ok (mkResponse 404 (py "gone")))
        0%nat (request_of test_imessage_conversion)
      = Ok (mkResponse 404 (py "gone"))
   /\ stdout_text (snd (run_script (main_of test_chat_api)
                          (boot [] [] []
                             (fun _ _ => Ok (mkResponse 404 (py "gone"))))))
      = stdout_text (snd (run_script (main_of test_imessage_conversion)
                            (boot [] [] []
                               (fun _ _ => Ok (mkResponse 404 (py "gone")))))))
  /\ mkResponse 404 (py "gone") = mkResponse 404 (py "gone").
Proof.
  split; [repeat split |].
  exact (response_read_off_output test_chat_api test_imessage_conversion
           [] [] [] [] [] []
           (fun _ _ => Ok (mkResponse 404 (py "gone")))
           (fun _ _ => Ok (mkResponse 404 (py "gone")))
           (mkResponse 404 (py "gone")) (mkResponse 404 (py "gone"))
           eq_refl eq_refl eq_refl).
Defined.

(** X3. A response and a failure are never reported alike: the text a
    run prints after a response differs from the text of any run whose
    POST raised, whatever the description of the exception. *)
Theorem response_and_failure_differ (s1 s2 : script)
    (args1 args2 : list pystr) (env1 env2 : list (pystr * pystr))
    (input1 input2 : pystr) (net1 net2 : nat -> Request -> result Response)
    (r : Response) (e : PyExc) :
  net1 0%nat (request_of s1) = Ok r ->
  net2 0%nat (request_of s2) = Raise e ->
  stdout_text (snd (run_script (main_of s1) (boot args1 env1 input1 net1)))
  <> stdout_text (snd (run_script (main_of s2) (boot args2 env2 input2 net2))).
Proof.
  intros H1 H2. rewrite !fresh_run_text, H1, H2.
  destruct (isinstance_Exception e); discriminate.
Qed.

Lemma response_and_failure_differ_witness :
  ((fun (_ : nat) (_ : Request) => Ok (mkResponse 200 (py "Error: x")))
     0%nat (request_of test_chat_api) = Ok (mkResponse 200 (py "Error: x"))
   /\ (fun (_ : nat) (_ : Request) =>
         @Raise Response (mkExc ConnectionError (py "x")))
        0%nat (request_of test_chat_api)
      = Raise (mkExc ConnectionError (py "x")))
  /\ stdout_text (snd (run_script (main_of test_chat_api)
                         (boot [] [] []
                            (fun _ _ => Ok (mkResponse 200 (py "Error: x"))))))
     <> stdout_text (snd (run_script (main_of test_chat_api)
                            (boot [] [] []
                               (fun _ _ =>
                                  Raise (mkExc ConnectionError (py "x")))))).
Proof.
  split; [split; reflexivity |].
  exact (response_and_failure_differ test_chat_api test_chat_api
           [] [] [] [] [] []
           (fun _ _ => Ok (mkResponse 200 (py "Error: x")))
           (fun _ _ => Raise (mkExc ConnectionError (py "x")))
           (mkResponse 200 (py "Error: x")) (mkExc ConnectionError (py "x"))
           eq_refl eq_refl).
Defined.

(** X4. The line printed after a failure tells its description: two runs,
    of either script, whose POST raised an instance of [Exception] and
    that printed the same text caught exceptions with the same
    description. *)
Theorem failure_read_off_output (s1 s2 : script)
    (args1 args2 : list pystr) (env1 env2 : list (pystr * pystr))
    (input1 input2 : pystr) (net1 net2 : nat -> Request -> result Response)
    (e1 e2 : PyExc) :
  net1 0%nat (request_of s1) = Raise e1 ->
  net2 0%nat (request_of s2) = Raise e2 ->
  isinstance_Exception e1 = true ->
  isinstance_Exception e2 = true ->
  stdout_text (snd (run_script (main_of s1) (boot args1 env1 input1 net1)))
  = stdout_text (snd (run_script (main_of s2) (boot args2 env2 input2 net2))) ->
  str_exc e1 = str_exc e2.
Proof.
  intros H1 H2 Hc1 Hc2. rewrite !fresh_run_text, H1, H2, Hc1, Hc2. intros E.
  apply app_inv_head in E. now apply app_inv_tail in E.
Qed.

Lemma failure_read_off_output_witness :
  ((fun (_ : nat) (_ : Request) =>
      @Raise Response (mkExc ConnectionError (py "refused")))
     0%nat (request_of test_chat_api)
   = Raise (mkExc ConnectionError (py "refused"))
   /\ (fun (_ : nat) (_ : Request) =>
         @Raise Response (mkExc ReadTimeout (py "refused")))
        0%nat (request_of test_imessage_conversion)
      = Raise (mkExc ReadTimeout (py "refused"))
   /\ isinstance_Exception (mkExc ConnectionError (py "refused")) = true
   /\ isinstance_Exception (mkExc ReadTimeout (py "refused")) = true
   /\ stdout_text (snd (run_script (main_of test_chat_api)
                          (boot [] [] []
                             (fun _ _ =>
                                Raise (mkExc ConnectionError (py "refused"))))))
      = stdout_text (snd (run_script (main_of test_imessage_conversion)
                            (boot [] [] []
                               (fun _ _ =>
                                  Raise (mkExc ReadTimeout (py "refused")))))))
  /\ str_exc (mkExc ConnectionError (py "refused"))
     = str_exc (mkExc ReadTimeout (py "refused")).
Proof.
  split; [repeat split |].
  exact (failure_read_off_output test_chat_api test_imessage_conversion
           [] [] [] [] [] []
           (fun _ _ => Raise (mkExc ConnectionError (py "refused")))
           (fun _ _ => Raise (mkExc ReadTimeout (py "refused")))
           (mkExc ConnectionError (py "refused"))
           (mkExc ReadTimeout (py "refused"))
           eq_refl eq_refl eq_refl eq_refl eq_refl).
Defined.

(** ** The text [json.dumps] writes *)

Module DumpsFacts.
Import Json.
Local Open Scope N_scope.

Ltac closed_printable :=
  unfold printable_ascii; split; vm_compute; discriminate.

Ltac literal_printable := repeat (constructor; [closed_printable |]); constructor.

Lemma hexdigit_printable (d : N) : d < 16 -> printable_ascii (hexdigit d).
Proof.
  intros Hd. unfold printable_ascii, hexdigit.
  change (ord "0") with 48. change (ord "a") with 97.
  destruct (N.ltb_spec d 10); lia.
Qed.

Lemma format_04x_printable (n : N) : Forall printable_ascii (format_04x n).
Proof.
  unfold format_04x.
  repeat constructor; apply hexdigit_printable;
    rewrite JsonFacts.land_15; lia.
Qed.

Lemma u_escape_printable (n : N) :
  Forall printable_ascii (BSLASH :: ord "u" :: format_04x n).
Proof.
  constructor; [closed_printable |].
  constructor; [closed_printable |].
  apply format_04x_printable.
Qed.

(** Whatever the character, what stands for it in the output is printable
    ASCII. *)
Lemma chunk_printable (c : N) : Forall printable_ascii (chunk c).
Proof.
  unfold chunk. destruct (ESCAPE_ASCII c) eqn:E.
  - unfold replace. destruct (ESCAPE_DCT c) as [e |] eqn:D.
    + apply JsonFacts.ESCAPE_DCT_cases in D as [D | [_ ->]].
      * cbn [In] in D.
        repeat (destruct D as [D | D];
                [injection D as <- <-; literal_printable |]).
        contradiction.
      * apply u_escape_printable.
    + cbv zeta. destruct (c <? 0x10000).
      * apply u_escape_printable.
      * apply Forall_app. split; [literal_printable |].
        apply Forall_app. split; [apply format_04x_printable |].
        apply Forall_app. split; [literal_printable |].
        apply format_04x_printable.
  - constructor; [| constructor].
    unfold ESCAPE_ASCII in E.
    apply orb_false_iff in E as [E H4].
    apply orb_false_iff in E as [_ H3].
    apply N.ltb_ge in H3, H4. unfold printable_ascii. lia.
Qed.

Lemma escape_sub_printable (s : pystr) : Forall printable_ascii (escape_sub s).
Proof.
  induction s as [| c s IH]; [constructor |].
  rewrite JsonFacts.escape_sub_cons. apply Forall_app.
  split; [apply chunk_printable | exact IH].
Qed.

Lemma encode_basestring_ascii_printable (s : pystr) :
  Forall printable_ascii (encode_basestring_ascii s).
Proof.
  unfold encode_basestring_ascii.
  apply Forall_app. split; [literal_printable |].
  apply Forall_app. split; [apply escape_sub_printable |].
  literal_printable.
Qed.

Lemma str_int_printable (z : Z) : Forall printable_ascii (str_int z).
Proof.
  eapply Forall_impl; [| apply str_int_chars].
  unfold printable_ascii. cbn beta. intros c [-> | H]; lia.
Qed.

Lemma encode_key_printable (k : pykey) :
  Forall printable_ascii (encode_basestring_ascii (encode_key k)).
Proof. apply encode_basestring_ascii_printable. Qed.

End DumpsFacts.

(** X5. Whatever the value, the text [json.dumps] writes is printable
    ASCII, from the space to the tilde: every other character of a key or
    of a string is written as an escape.  So the body the scripts hand to
    [requests.post] has no character that an encoding could refuse or
    change. *)
Theorem dumps_printable_ascii (v : pyval) :
  Forall printable_ascii (Json.dumps v).
Proof.
  unfold Json.dumps. revert v.
  fix IH 1. intros [ | [|] | z | s | l | items]; cbn [Json.iterencode].
  - DumpsFacts.literal_printable.
  - DumpsFacts.literal_printable.
  - DumpsFacts.literal_printable.
  - apply DumpsFacts.str_int_printable.
  - apply DumpsFacts.encode_basestring_ascii_printable.
  - destruct l as [| v l]; [DumpsFacts.literal_printable |].
    apply Forall_app. split; [DumpsFacts.literal_printable |].
    apply Forall_app. split; [| DumpsFacts.literal_printable].
    apply Forall_app. split; [constructor |].
    apply Forall_app. split; [apply IH |].
    induction l as [| v' l IHl]; [constructor |].
    cbv beta match fix.
    apply Forall_app. split; [DumpsFacts.literal_printable |].
    apply Forall_app. split; [apply IH | exact IHl].
  - destruct items as [| [k v] items]; [DumpsFacts.literal_printable |].
    apply Forall_app. split; [DumpsFacts.literal_printable |].
    apply Forall_app. split; [| DumpsFacts.literal_printable].
    apply Forall_app. split; [constructor |].
    apply Forall_app. split; [apply DumpsFacts.encode_key_printable |].
    apply Forall_app. split; [DumpsFacts.literal_printable |].
    apply Forall_app. split; [apply IH |].
    induction items as [| [k' v'] items IHl]; [constructor |].
    cbv beta match fix.
    apply Forall_app. split; [DumpsFacts.literal_printable |].
    apply Forall_app. split; [apply DumpsFacts.encode_key_printable |].
    apply Forall_app. split; [DumpsFacts.literal_printable |].
    apply Forall_app. split; [apply IH | exact IHl].
Qed.

(** ** Strings written as they are *)

Module EncodeFacts.
Import Json.
Local Open Scope N_scope.

Lemma chunk_copied (c : N) : copied_as_is c = true -> chunk c = [c].
Proof.
  unfold copied_as_is, chunk. now destruct (ESCAPE_ASCII c).
Qed.

(** An escape takes at least two characters. *)
Lemma chunk_escaped_length (c : N) :
  copied_as_is c = false -> (2 <= List.length (chunk c))%nat.
Proof.
  unfold copied_as_is, chunk. destruct (ESCAPE_ASCII c) eqn:E; [| discriminate].
  intros _. unfold replace.
  destruct (ESCAPE_DCT c) as [e |] eqn:D.
  - apply JsonFacts.ESCAPE_DCT_cases in D as [D | [_ ->]].
    + cbn [In] in D.
      repeat (destruct D as [D | D]; [injection D as <- <-; cbn; lia |]).
      contradiction.
    + cbn [app List.length]. lia.
  - cbv zeta. destruct (c <? 0x10000); cbn [app List.length]; lia.
Qed.

Lemma chunk_length (c : N) : (1 <= List.length (chunk c))%nat.
Proof.
  destruct (copied_as_is c) eqn:E.
  - rewrite chunk_copied by assumption. cbn. lia.
  - apply chunk_escaped_length in E. lia.
Qed.

Lemma escape_sub_length (s : pystr) :
  (List.length s <= List.length (escape_sub s))%nat.
Proof.
  induction s as [| c s IH]; [apply le_n |].
  rewrite JsonFacts.escape_sub_cons, length_app. cbn [List.length].
  pose proof (chunk_length c). lia.
Qed.

Lemma escape_sub_copied (s : pystr) :
  forallb copied_as_is s = true -> escape_sub s = s.
Proof.
  induction s as [| c s IH]; [reflexivity |].
  cbn [forallb]. intros H. apply andb_true_iff in H as [Hc Hs].
  rewrite JsonFacts.escape_sub_cons, chunk_copied, IH by assumption.
  reflexivity.
Qed.

Lemma escape_sub_same_length (s : pystr) :
  List.length (escape_sub s) = List.length s -> forallb copied_as_is s = true.
Proof.
  induction s as [| c s IH]; [reflexivity |].
  rewrite JsonFacts.escape_sub_cons, length_app. cbn [List.length forallb].
  intros H. pose proof (escape_sub_length s) as Hs.
  destruct (copied_as_is c) eqn:E.
  - rewrite chunk_copied in H by assumption. cbn [List.length] in H.
    apply IH. lia.
  - apply chunk_escaped_length in E. lia.
Qed.

End EncodeFacts.

(** X6. [json.dumps] writes a string as it is, between two double quotes,
    exactly when every character of it is printable ASCII other than the
    double quote and the backslash; any other character makes the text
    differ from the string (an escape stands for it). *)
Theorem encode_verbatim_iff (s : pystr) :
  Json.dumps (PStr s) = [DQUOTE] ++ s ++ [DQUOTE]
  <-> forallb copied_as_is s = true.
Proof.
  unfold Json.dumps. cbn [Json.iterencode]. unfold Json.encode_basestring_ascii.
  split.
  - intros H. apply app_inv_head in H. apply app_inv_tail in H.
    apply EncodeFacts.escape_sub_same_length. now rewrite H.
  - intros H. now rewrite EncodeFacts.escape_sub_copied.
Qed.

(** ** What comes back from the escapes *)

Module DecodeFacts.
Import Json.
Local Open Scope N_scope.

Lemma join_surrogate_pairs_cons2 (c c' : N) (s'' : pystr) :
  join_surrogate_pairs (c :: c' :: s'')
  = if is_high_surrogate c && is_low_surrogate c'
    then join_surrogates c c' :: join_surrogate_pairs s''
    else c :: join_surrogate_pairs (c' :: s'').
Proof. reflexivity. Qed.

(** A surrogate is written as one [\u] escape of its four digits. *)
Lemma chunk_surrogate (c : N) :
  is_surrogate c = true -> chunk c = BSLASH :: ord "u" :: format_04x c.
Proof.
  unfold is_surrogate, is_high_surrogate, is_low_surrogate. intros H.
  assert (Hc : 0xd800 <= c <= 0xdfff).
  { apply orb_true_iff in H as [H | H]; apply andb_true_iff in H as [H1 H2];
      apply N.leb_le in H1, H2; lia. }
  unfold chunk, ESCAPE_ASCII.
  destruct (N.eqb_spec c BSLASH) as [E | _]; [unfold BSLASH in E; lia |].
  destruct (N.eqb_spec c DQUOTE) as [E | _]; [unfold DQUOTE in E; lia |].
  destruct (N.ltb_spec c 0x20); [lia |].
  destruct (N.ltb_spec 0x7e c); [| lia].
  cbn [orb]. unfold replace, ESCAPE_DCT.
  destruct (N.eqb_spec c BSLASH) as [E | _]; [unfold BSLASH in E; lia |].
  destruct (N.eqb_spec c DQUOTE) as [E | _]; [unfold DQUOTE in E; lia |].
  repeat match goal with
         | |- context [if ?x =? ?k then _ else _] =>
             destruct (N.eqb_spec x k); [lia |]
         end.
  destruct (N.ltb_spec c 0x20); [lia |].
  cbv zeta. destruct (N.ltb_spec c 0x10000); [reflexivity | lia].
Qed.

(** A high surrogate next to a low one: the two escapes are read as one
    character. *)
Lemma scanstring_pair (c c' : N) (rest : pystr) :
  is_high_surrogate c = true -> is_low_surrogate c' = true ->
  scanstring (chunk c ++ chunk c' ++ rest)
  = append_char (join_surrogates c c') (scanstring rest).
Proof.
  intros Hh Hl.
  assert (Hc : c < 0x10000).
  { unfold is_high_surrogate in Hh. apply andb_true_iff in Hh as [_ H].
    apply N.leb_le in H. lia. }
  assert (Hc' : c' < 0x10000).
  { unfold is_low_surrogate in Hl. apply andb_true_iff in Hl as [_ H].
    apply N.leb_le in H. lia. }
  rewrite !chunk_surrogate by (unfold is_surrogate; rewrite ?Hh, ?Hl, ?orb_true_r; reflexivity).
  unfold format_04x. cbn [app].
  rewrite JsonFacts.scanstring_u_eq, JsonFacts.decode_format_04x, Hh by assumption.
  change ((BSLASH =? BSLASH) && (ord "u" =? ord "u")) with true. cbv iota.
  now rewrite JsonFacts.decode_format_04x, Hl by assumption.
Qed.

(** [scanstring] on what [encode_basestring_ascii] wrote, for any string. *)
Lemma scanstring_escape_sub_bounded (n : nat) :
  forall (s tail : pystr),
    (List.length s <= n)%nat ->
    valid_str s ->
    scanstring (escape_sub s ++ DQUOTE :: tail)
    = Parsed (join_surrogate_pairs s, tail).
Proof.
  induction n as [| n IH]; intros s tail Hlen Hv.
  - destruct s; [reflexivity | cbn [List.length] in Hlen; lia].
  - destruct s as [| c s']; [reflexivity |].
    assert (Hc : valid_codepoint c) by now inversion Hv.
    assert (Hv' : valid_str s') by now inversion Hv.
    cbn [List.length] in Hlen.
    destruct s' as [| c' s''].
    + rewrite JsonFacts.escape_sub_cons, <- app_assoc.
      rewrite JsonFacts.scanstring_chunk; [reflexivity | assumption |].
      intros _. now apply (JsonFacts.lone_ok_next []).
    + rewrite join_surrogate_pairs_cons2.
      destruct (is_high_surrogate c && is_low_surrogate c') eqn:E.
      * apply andb_true_iff in E as [Hh Hl].
        rewrite !JsonFacts.escape_sub_cons, <- !app_assoc.
        rewrite scanstring_pair by assumption.
        rewrite IH; [reflexivity | cbn [List.length] in Hlen; lia |].
        now inversion Hv'.
      * rewrite JsonFacts.escape_sub_cons, <- app_assoc.
        rewrite JsonFacts.scanstring_chunk; [| assumption |].
        -- rewrite IH; [reflexivity | lia | assumption].
        -- intros Hh. apply JsonFacts.lone_ok_next; [assumption |].
           rewrite Hh in E. exact E.
Qed.

Lemma scanstring_escape_sub_join (s tail : pystr) :
  valid_str s ->
  scanstring (escape_sub s ++ DQUOTE :: tail)
  = Parsed (join_surrogate_pairs s, tail).
Proof. apply (scanstring_escape_sub_bounded (List.length s)). apply le_n. Qed.

(** Joining shortens the string when there is a pair to join. *)
Lemma join_length_bounded (n : nat) :
  forall s : pystr,
    (List.length s <= n)%nat ->
    (List.length (join_surrogate_pairs s) <= List.length s)%nat.
Proof.
  induction n as [| n IH]; intros s Hlen.
  - destruct s; [apply le_n | cbn [List.length] in Hlen; lia].
  - destruct s as [| c [| c' s'']]; [apply le_n | apply le_n |].
    rewrite join_surrogate_pairs_cons2. cbn [List.length] in Hlen.
    destruct (is_high_surrogate c && is_low_surrogate c').
    + specialize (IH s''). cbn [List.length]. lia.
    + specialize (IH (c' :: s'')). cbn [List.length] in *. lia.
Qed.

Lemma join_length (s : pystr) :
  (List.length (join_surrogate_pairs s) <= List.length s)%nat.
Proof. apply (join_length_bounded (List.length s)). apply le_n. Qed.

(** Joining changes nothing exactly when there is no pair. *)
Lemma join_surrogate_pairs_id_iff (s : pystr) :
  join_surrogate_pairs s = s <-> no_surrogate_pair s = true.
Proof.
  induction s as [| c s' IH]; [now split |].
  destruct s' as [| c' s'']; [now split |].
  rewrite join_surrogate_pairs_cons2.
  change (no_surrogate_pair (c :: c' :: s''))
    with (negb (is_high_surrogate c && is_low_surrogate c')
          && no_surrogate_pair (c' :: s'')).
  destruct (is_high_surrogate c && is_low_surrogate c').
  - split; [| discriminate].
    intros H. apply (f_equal (@List.length N)) in H.
    pose proof (join_length s''). cbn [List.length] in H. lia.
  - cbn [negb andb]. rewrite <- IH.
    split; [now intros [= H] | now intros ->].
Qed.

End DecodeFacts.

(** X7. For every string, [json.loads] reads the text [json.dumps] wrote
    for it, and gives the string back exactly when no high surrogate of it
    is immediately followed by a low surrogate: escapes, control
    characters, characters beyond the basic plane and lone surrogates all
    come back as they were. *)
Theorem str_roundtrip_iff (s : pystr) :
  valid_str s ->
  Json.loads (Json.dumps (PStr s)) = Json.Parsed (PStr (join_surrogate_pairs s))
  /\ (Json.loads (Json.dumps (PStr s)) = Json.Parsed (PStr s)
      <-> no_surrogate_pair s = true).
Proof.
  intros Hv.
  assert (H : Json.loads (Json.dumps (PStr s))
              = Json.Parsed (PStr (join_surrogate_pairs s))).
  { unfold Json.dumps. cbn [Json.iterencode].
    unfold Json.encode_basestring_ascii. cbn [app].
    unfold Json.loads.
    change (Json.skip_ws (DQUOTE :: ?X)) with (DQUOTE :: X). cbv iota.
    unfold Json.raw_decode. change (DQUOTE =? ord "{")%N with false. cbv iota.
    rewrite JsonFacts.scan_once_quote.
    rewrite DecodeFacts.scanstring_escape_sub_join by assumption.
    reflexivity. }
  split; [exact H |].
  rewrite H, <- DecodeFacts.join_surrogate_pairs_id_iff.
  split; [now intros [= E] | now intros ->].
Qed.

Lemma str_roundtrip_iff_witness :
  valid_str [0xd83d; 0xde00; 10; 0xd83d]%N
  /\ Json.loads (Json.dumps (PStr [0xd83d; 0xde00; 10; 0xd83d]%N))
     = Json.Parsed (PStr [0x1f600; 10; 0xd83d]%N).
Proof.
  assert (Hv : valid_str [0xd83d; 0xde00; 10; 0xd83d]%N).
  { repeat constructor; unfold valid_codepoint; cbn; lia. }
  split; [exact Hv |].
  exact (proj1 (str_roundtrip_iff [0xd83d; 0xde00; 10; 0xd83d]%N Hv)).
Defined.

(** ** What comes back from the body of a request *)

Module ObjectFacts.
Import Json.
Local Open Scope N_scope.

(** One round of the loop of [JSONObject] over the text of a member, for
    any key and value. *)
Lemma JSONObject_loop_round_join (fuel : nat) (k v R : pystr)
    (acc : list (pykey * pyval)) :
  valid_str k -> valid_str v ->
  JSONObject_loop (S fuel) (member_text k v R) acc =
  match skip_ws R with
  | [] => Failed JSONDecodeError
  | nextchar :: s4 =>
      if nextchar =? ord "}" then Parsed (acc ++ [joined_item (k, v)], s4)
      else if negb (nextchar =? ord ",") then Failed JSONDecodeError
      else
        match skip_ws s4 with
        | [] => Failed JSONDecodeError
        | q :: s5 =>
            if negb (q =? DQUOTE) then Failed JSONDecodeError
            else JSONObject_loop fuel s5 (acc ++ [joined_item (k, v)])
        end
  end.
Proof.
  intros Hk Hv.
  unfold member_text. cbn [JSONObject_loop].
  rewrite DecodeFacts.scanstring_escape_sub_join by assumption.
  rewrite JsonFacts.skip_ws_colon. cbv iota.
  change (negb (ord ":" =? ord ":")) with false. cbv iota.
  rewrite JsonFacts.skip_ws_space_quote, JsonFacts.scan_once_quote.
  rewrite DecodeFacts.scanstring_escape_sub_join by assumption.
  reflexivity.
Qed.

Lemma JSONObject_loop_members_join (p : list (pystr * pystr)) :
  forall (k v : pystr) (fuel : nat) (acc : list (pykey * pyval)) (tail : pystr),
    (List.length p < fuel)%nat ->
    valid_str k -> valid_str v ->
    Forall (fun kv => valid_str (fst kv) /\ valid_str (snd kv)) p ->
    JSONObject_loop fuel
      (member_text k v (str_str_members false p ++ py "}" ++ tail)) acc
    = Parsed (acc ++ map joined_item ((k, v) :: p), tail).
Proof.
  induction p as [| [k' v'] p IH];
    intros k v fuel acc tail Hfuel Hk Hv Hp;
    (destruct fuel as [| fuel]; [cbn [List.length] in Hfuel; lia |]);
    rewrite JSONObject_loop_round_join by assumption.
  - cbn [str_str_members app].
    change (py "}" ++ tail) with (ord "}" :: tail).
    rewrite JsonFacts.skip_ws_close.
    change (ord "}" =? ord "}") with true. cbv iota. reflexivity.
  - rewrite JsonFacts.members_next, JsonFacts.skip_ws_comma.
    change (ord "," =? ord "}") with false.
    change (negb (ord "," =? ord ",")) with false. cbv iota.
    rewrite JsonFacts.skip_ws_space_quote.
    change (negb (DQUOTE =? DQUOTE)) with false. cbv iota.
    inversion Hp as [| ? ? [Hk' Hv'] Hp']; subst.
    cbn [fst snd] in Hk', Hv'.
    rewrite IH; try assumption.
    + cbn [map]. rewrite <- app_assoc. reflexivity.
    + cbn [List.length] in Hfuel. lia.
Qed.

(** [d[k] = v] either overwrites, and the dict keeps its length, or puts
    the item last. *)
Lemma dict_setitem_cases (d : list (pykey * pyval)) (k : pykey) (v : pyval) :
  List.length (dict_setitem d k v) = List.length d
  \/ dict_setitem d k v = d ++ [(k, v)].
Proof.
  induction d as [| [k' v'] d IH]; [now right |].
  cbn [dict_setitem]. destruct (pykey_eqb k' k); [now left |].
  destruct IH as [IH | IH].
  - left. cbn [List.length]. now rewrite IH.
  - right. cbn [app]. now rewrite IH.
Qed.

Lemma fold_setitem_length (L acc : list (pykey * pyval)) :
  (List.length (fold_left (fun d kv => dict_setitem d (fst kv) (snd kv)) L acc)
   <= List.length acc + List.length L)%nat.
Proof.
  revert acc. induction L as [| [k v] L IH]; intros acc;
    cbn [fold_left fst snd List.length]; [lia |].
  specialize (IH (dict_setitem acc k v)).
  destruct (dict_setitem_cases acc k v) as [E | E].
  - rewrite E in IH. lia.
  - rewrite E in IH at 2. rewrite length_app in IH. cbn [List.length] in IH. lia.
Qed.

(** A dict built from pairs has as many items as there are pairs only when
    no pair overwrote another, and then it is the list of the pairs. *)
Lemma fold_setitem_full (L acc : list (pykey * pyval)) :
  List.length (fold_left (fun d kv => dict_setitem d (fst kv) (snd kv)) L acc)
  = (List.length acc + List.length L)%nat ->
  fold_left (fun d kv => dict_setitem d (fst kv) (snd kv)) L acc = acc ++ L.
Proof.
  revert acc. induction L as [| [k v] L IH]; intros acc;
    cbn [fold_left fst snd List.length]; [now rewrite app_nil_r |].
  intros H.
  pose proof (fold_setitem_length L (dict_setitem acc k v)) as Hle.
  destruct (dict_setitem_cases acc k v) as [E | E].
  - rewrite E in Hle. lia.
  - rewrite E in *. rewrite IH.
    + now rewrite <- app_assoc.
    + rewrite length_app. cbn [List.length]. lia.
Qed.

Lemma cons_eq_inv {A} (a b : A) (l l' : list A) :
  a :: l = b :: l' -> a = b /\ l = l'.
Proof. now intros [= -> ->]. Qed.

Lemma joined_item_id_iff (kv : pystr * pystr) :
  joined_item kv = str_item kv
  <-> no_surrogate_pair (fst kv) = true /\ no_surrogate_pair (snd kv) = true.
Proof.
  unfold joined_item, str_item.
  rewrite <- !DecodeFacts.join_surrogate_pairs_id_iff.
  split; [now intros [= -> ->] | now intros [-> ->]].
Qed.

Lemma map_joined_item_id_iff (p : list (pystr * pystr)) :
  map joined_item p = map str_item p
  <-> Forall (fun kv => no_surrogate_pair (fst kv) = true
                        /\ no_surrogate_pair (snd kv) = true) p.
Proof.
  induction p as [| kv p IH]; [split; [constructor | reflexivity] |].
  cbn [map]. split.
  - intros H. apply cons_eq_inv in H as [H1 H2].
    constructor; [now apply joined_item_id_iff | now apply IH].
  - intros H. inversion H as [| ? ? H1 H2]; subst.
    apply joined_item_id_iff in H1. apply IH in H2. now rewrite H1, H2.
Qed.

(** [loads] after [dumps] on a dict of strings, whatever they hold. *)
Lemma loads_dumps_join (p : list (pystr * pystr)) :
  Forall (fun kv => valid_str (fst kv) /\ valid_str (snd kv)) p ->
  loads (dumps (str_str_dict p)) = Parsed (dict_display (map joined_item p)).
Proof.
  intros Hwf. unfold dumps.
  rewrite JsonFacts.iterencode_str_str_dict.
  destruct p as [| [k v] p]; [reflexivity |].
  change (py "{" ++ ?X) with (ord "{" :: X).
  rewrite JsonFacts.members_first.
  unfold loads.
  change (skip_ws (ord "{" :: ?X)) with (ord "{" :: X).
  cbv iota.
  unfold raw_decode. change (ord "{" =? ord "{")%N with true. cbv iota.
  unfold JSONObject. rewrite JsonFacts.skip_ws_quote.
  change (DQUOTE =? ord "}")%N with false.
  change (negb (DQUOTE =? DQUOTE)%N) with false. cbv iota.
  inversion Hwf as [| ? ? [Hk Hv] Hp]; subst. cbn [fst snd] in Hk, Hv.
  replace (str_str_members false p ++ py "}")
    with (str_str_members false p ++ py "}" ++ [])
    by now rewrite app_nil_r.
  rewrite JSONObject_loop_members_join; try assumption.
  - reflexivity.
  - unfold member_text.
    repeat (rewrite length_app || cbn [List.length]).
    pose proof (JsonFacts.members_length p false). lia.
Qed.

End ObjectFacts.

(** X8. The body [json.dumps] writes for a payload of strings is always
    JSON that [json.loads] accepts, whatever the strings hold, and what
    comes back is the dict built from the members of the payload, each key
    and each value with its surrogate pairs joined. *)
Theorem body_always_parses (p : list (pystr * pystr)) :
  Forall (fun kv => valid_str (fst kv) /\ valid_str (snd kv)) p ->
  Json.loads (Json.dumps (str_str_dict p))
  = Json.Parsed (dict_display (map joined_item p)).
Proof. apply ObjectFacts.loads_dumps_join. Qed.

Lemma body_always_parses_witness :
  Forall (fun kv => valid_str (fst kv) /\ valid_str (snd kv))
         [ ([0xd83d; 0xde00]%N, py "a"); ([0x1f600]%N, py "b") ]
  /\ Json.loads (Json.dumps (str_str_dict
       [ ([0xd83d; 0xde00]%N, py "a"); ([0x1f600]%N, py "b") ]))
     = Json.Parsed (PDict [ (KStr [0x1f600]%N, PStr (py "b")) ]).
Proof.
  assert (Hv : Forall (fun kv => valid_str (fst kv) /\ valid_str (snd kv))
                 [ ([0xd83d; 0xde00]%N, py "a"); ([0x1f600]%N, py "b") ]).
  { repeat constructor; unfold valid_codepoint; cbn; lia. }
  split; [exact Hv |].
  exact (body_always_parses _ Hv).
Defined.

(** X9. A payload with distinct string keys and string values comes back
    from [json.loads] of [json.dumps] as it was exactly when no key and no
    value has a high surrogate immediately followed by a low surrogate. *)
Theorem payload_roundtrip_iff (p : list (pystr * pystr)) :
  NoDup (map fst p) ->
  Forall (fun kv => valid_str (fst kv) /\ valid_str (snd kv)) p ->
  Json.loads (Json.dumps (str_str_dict p)) = Json.Parsed (str_str_dict p)
  <-> Forall (fun kv => no_surrogate_pair (fst kv) = true
                        /\ no_surrogate_pair (snd kv) = true) p.
Proof.
  intros Hnd Hv.
  pose proof (ObjectFacts.loads_dumps_join p Hv) as H.
  rewrite H, <- ObjectFacts.map_joined_item_id_iff.
  unfold dict_display, str_str_dict. split.
  - intros [= E].
    rewrite ObjectFacts.fold_setitem_full in E; [exact E |].
    rewrite E. cbn [List.length]. now rewrite !length_map.
  - intros E. rewrite E. f_equal. f_equal.
    exact (JsonFacts.fold_setitem_fresh p [] Hnd).
Qed.

Lemma payload_roundtrip_iff_witness :
  (NoDup (map fst [ (py "k", [0xd83d; 10; 0xde00]%N) ])
   /\ Forall (fun kv => valid_str (fst kv) /\ valid_str (snd kv))
             [ (py "k", [0xd83d; 10; 0xde00]%N) ])
  /\ (Json.loads (Json.dumps (str_str_dict [ (py "k", [0xd83d; 10; 0xde00]%N) ]))
      = Json.Parsed (str_str_dict [ (py "k", [0xd83d; 10; 0xde00]%N) ])
      <-> Forall (fun kv => no_surrogate_pair (fst kv) = true
                            /\ no_surrogate_pair (snd kv) = true)
                 [ (py "k", [0xd83d; 10; 0xde00]%N) ]).
Proof.
  assert (Hnd : NoDup (map fst [ (py "k", [0xd83d; 10; 0xde00]%N) ])).
  { repeat constructor. intros []. }
  assert (Hv : Forall (fun kv => valid_str (fst kv) /\ valid_str (snd kv))
                 [ (py "k", [0xd83d; 10; 0xde00]%N) ]).
  { repeat constructor; unfold valid_codepoint; cbn; lia. }
  split; [split; assumption |].
  exact (payload_roundtrip_iff _ Hnd Hv).
Defined.
